(** * The Scrambler: a shallow embedding of [scrambler.py]

    The development follows the layout of the module: first the Python
    values and library functions the module calls, then the text
    [Scrambler], then the [HTMLScrambler] that drives it from the events of
    the HTML tokenizer, then the CGI front end [main], and finally the
    properties of all three.

    Python strings are sequences of Unicode code points; a code point is a
    number in [N] and a string a list of them.  Code that can raise returns
    a [result]; the system random number generator is an explicit stream of
    draws that is threaded through every shuffle. *)

From Stdlib Require Import NArith Ascii String Bool Lia.
From stdpp Require Import base numbers list relations.

(** ** Python strings *)

Definition char := N.
Definition str := list char.

(** An ASCII literal as a Python string. *)
Definition py (s : string) : str := N_of_ascii <$> list_ascii_of_string s.

(** [x.startswith(p)] and the substring test [x in s]. *)
Fixpoint startswith (p s : str) : bool :=
  match p, s with
  | [], _ => true
  | a :: p', b :: s' => bool_decide (a = b) && startswith p' s'
  | _ :: _, [] => false
  end.

Fixpoint str_in (x s : str) : bool :=
  startswith x s ||
  match s with
  | [] => false
  | _ :: s' => str_in x s'
  end.

(** [s.split(sep)] for a non-empty separator: the pieces between the
    leftmost non-overlapping occurrences of [sep].  [skip] counts the
    characters of a matched separator that are still to be passed over. *)
Fixpoint split_go (sep s cur : str) (skip : nat) : list str :=
  match s with
  | [] => [cur]
  | c :: s' =>
      match skip with
      | S k => split_go sep s' cur k
      | O =>
          if startswith sep s
          then cur :: split_go sep s' [] (length sep - 1)
          else split_go sep s' (cur ++ [c]) 0
      end
  end.

Definition str_split (sep s : str) : list str := split_go sep s [] 0.

(** [s.split(sep, 1)] for a one-character separator that occurs in [s]:
    the text before and after its first occurrence. *)
Fixpoint split_first (sep : char) (s : str) : str * str :=
  match s with
  | [] => ([], [])
  | c :: s' =>
      if bool_decide (c = sep) then ([], s')
      else let '(a, b) := split_first sep s' in (c :: a, b)
  end.

(** [sep.join(l)]. *)
Fixpoint str_join (sep : str) (l : list str) : str :=
  match l with
  | [] => []
  | [x] => x
  | x :: l' => x ++ sep ++ str_join sep l'
  end.

(** Decimal and two-digit upper-case hexadecimal numerals. *)
Definition digit_char (d : N) : char :=
  (if d <? 10 then 48 + d else 55 + d)%N.

Fixpoint decimal_go (fuel : nat) (n : N) (acc : str) : str :=
  match fuel with
  | O => acc
  | S f =>
      let acc' := digit_char (n mod 10) :: acc in
      if (n <? 10)%N then acc' else decimal_go f (n / 10)%N acc'
  end.

Definition decimal (n : N) : str := decimal_go (S (N.to_nat (N.log2 n))) n [].

Definition hex2 (b : N) : str := [digit_char (b / 16 mod 16); digit_char (b mod 16)].

(** ** Exceptions *)

Inductive exn := IndexError | ValueError | UnicodeError | LookupError.

Inductive result (A : Type) :=
  | Ok (a : A)
  | Raise (e : exn).
Arguments Ok {A} a.
Arguments Raise {A} e.

#[global] Instance result_ret : MRet result := fun A a => Ok a.
#[global] Instance result_bind : MBind result := fun A B k r =>
  match r with
  | Ok a => k a
  | Raise e => Raise e
  end.

(** [l.pop(0)]. *)
Definition pop0 {A} (l : list A) : result (A * list A) :=
  match l with
  | [] => Raise IndexError
  | x :: l' => Ok (x, l')
  end.

(** ** The system random number generator

    [random.SystemRandom] reads operating-system entropy.  The stream of
    draws is an input of the model: [randbelow n] takes the next draw and
    reduces it below [n], so that every outcome of the library's
    [_randbelow(n)] is the image of some stream. *)

Definition entropy := nat -> nat.

Definition randbelow (n : nat) (e : entropy) : nat * entropy :=
  (e 0 mod n, fun i => e (S i)).

(** [x[i], x[j] = x[j], x[i]] *)
Definition swap {A} (i j : nat) (x : list A) : list A :=
  match x !! i, x !! j with
  | Some a, Some b => <[j:=a]> (<[i:=b]> x)
  | _, _ => x
  end.

(** [random.shuffle]: [for i in reversed(range(1, len(x))): j =
    randbelow(i + 1); swap]. *)
Fixpoint shuffle_go {A} (i : nat) (x : list A) (e : entropy) : list A * entropy :=
  match i with
  | O => (x, e)
  | S i' =>
      let '(j, e') := randbelow (i + 1) e in
      shuffle_go i' (swap i j x) e'
  end.

Definition shuffle {A} (x : list A) (e : entropy) : list A * entropy :=
  shuffle_go (length x - 1) x e.

(** ** Codecs

    A codec is given by what it does to one character when encoding and by
    its decoder under the [ignore] error handler. *)

Record Codec := {
  encode_char : char -> option (list N);
  decode_ignore : list N -> str;
}.

(** ** The standard library behind the module

    The Unicode character database, [urllib.parse.urljoin] and the codec
    registry are not part of the module; the definitions below are
    parametric in them.  Each table is read at a one-character string, as
    the module does. *)

Class PyLib := {
  isalpha : char -> bool;
  isdigit : char -> bool;
  isupper : char -> bool;
  isspace : char -> bool;
  (** [c.lower()] and the upper-case mapping of one character; either may
      yield more than one character *)
  lower : char -> str;
  upper : char -> str;
  (** [unicodedata.normalize("NFKD", s)[0]] *)
  nfkd_head : str -> char;
  urljoin : str -> str -> result str;
  lookup_codec : str -> option Codec;
}.

Section Library.
Context `{PyLib}.

(** [s.upper()] *)
Definition str_upper (s : str) : str := s ≫= upper.

(** [s.strip()] *)
Fixpoint lstrip (s : str) : str :=
  match s with
  | c :: s' => if isspace c then lstrip s' else s
  | [] => []
  end.

Definition strip (s : str) : str := reverse (lstrip (reverse (lstrip s))).

End Library.

(** [html.escape(s, quote=True)]: the five replacements act on distinct
    characters and [&] is replaced first, so they amount to one pass. *)
Definition escape_char (c : char) : str :=
  if bool_decide (c = 38%N) then py "&amp;"
  else if bool_decide (c = 60%N) then py "&lt;"
  else if bool_decide (c = 62%N) then py "&gt;"
  else if bool_decide (c = 34%N) then py "&quot;"
  else if bool_decide (c = 39%N) then py "&#x27;"
  else [c].

Definition html_escape (s : str) : str := s ≫= escape_char.

(** [str.encode("utf-8")] with the default [strict] handler. *)
Definition utf8_char (c : char) : result (list N) :=
  (if c <? 128 then Ok [c]
   else if c <? 2048 then Ok [192 + c / 64; 128 + c mod 64]
   else if (55296 <=? c) && (c <? 57344) then Raise UnicodeError
   else if c <? 65536 then
     Ok [224 + c / 4096; 128 + c / 64 mod 64; 128 + c mod 64]
   else if c <? 1114112 then
     Ok [240 + c / 262144; 128 + c / 4096 mod 64; 128 + c / 64 mod 64;
         128 + c mod 64]
   else Raise UnicodeError)%N.

Fixpoint utf8_encode (s : str) : result (list N) :=
  match s with
  | [] => Ok []
  | c :: s' => b ← utf8_char c; bs ← utf8_encode s'; Ok (b ++ bs)
  end.

(** [urllib.parse.quote(s)] with the default [safe="/"]: letters, digits
    and [_.-~/] are kept, every other byte of the UTF-8 encoding becomes
    [%XX]. *)
Definition quote_safe (b : N) : bool :=
  ((65 <=? b) && (b <=? 90) || (97 <=? b) && (b <=? 122)
   || (48 <=? b) && (b <=? 57))%N
  || bool_decide (b ∈ py "_.-~/").

Definition quote_byte (b : N) : str :=
  if quote_safe b then [b] else 37%N :: hex2 b.

Definition quote (s : str) : result str :=
  bs ← utf8_encode s; Ok (bs ≫= quote_byte).

(** ** [class Scrambler] *)

Module Scrambler.

(** [_buf] holds the fed characters; the four class lists hold strings,
    since [c.lower()] may be longer than one character. *)
Record t := mk {
  _buf : list char;
  _alpha : list str;
  _cons : list str;
  _vowels : list str;
  _digits : list str;
  _preserve_letter_distribution : bool;
}.

Definition _CONSONANTS : str := py "bcdfghjklmnpqrstvwxz".
Definition _VOWELS : str := py "aeiouy".

(** The three lists a letter can be routed to. *)
Inductive bucket := Alpha | Cons | Vowels.

#[global] Instance bucket_eq_dec : EqDecision bucket.
Proof. solve_decision. Defined.

Definition get (b : bucket) (s : t) : list str :=
  match b with
  | Alpha => _alpha s
  | Cons => _cons s
  | Vowels => _vowels s
  end.

Definition set (b : bucket) (l : list str) (s : t) : t :=
  match b with
  | Alpha => mk (_buf s) l (_cons s) (_vowels s) (_digits s)
               (_preserve_letter_distribution s)
  | Cons => mk (_buf s) (_alpha s) l (_vowels s) (_digits s)
              (_preserve_letter_distribution s)
  | Vowels => mk (_buf s) (_alpha s) (_cons s) l (_digits s)
                (_preserve_letter_distribution s)
  end.

Definition set_digits (l : list str) (s : t) : t :=
  mk (_buf s) (_alpha s) (_cons s) (_vowels s) l
     (_preserve_letter_distribution s).

Definition set_buf (l : list char) (s : t) : t :=
  mk l (_alpha s) (_cons s) (_vowels s) (_digits s)
     (_preserve_letter_distribution s).

(** [__init__] *)
Definition init (preserve_letter_distribution : bool) : t :=
  mk [] [] [] [] [] preserve_letter_distribution.

(** [clear] *)
Definition clear (s : t) : t :=
  mk [] [] [] [] [] (_preserve_letter_distribution s).

Section WithLibrary.
Context `{PyLib}.

(** The list [feed] appends the lower-cased letter [c] to: the test is on
    the normalised letter itself. *)
Definition feed_bucket (s : t) (c : str) : bucket :=
  if _preserve_letter_distribution s then
    let n := nfkd_head c in
    if str_in [n] _CONSONANTS then Cons
    else if str_in [n] _VOWELS then Vowels
    else Alpha
  else Alpha.

(** One turn of the loop of [feed]. *)
Definition feed_char (s : t) (c : char) : t :=
  let s := set_buf (_buf s ++ [c]) s in
  if isalpha c then
    let c := lower c in
    let b := feed_bucket s c in
    set b (get b s ++ [c]) s
  else if isdigit c then set_digits (_digits s ++ [[c]]) s
  else s.

Definition feed (s : t) (text : str) : t := foldl feed_char s text.

(** The list [_pop_letter] pops from: here the test is on the lower-cased
    normalised letter. *)
Definition pop_bucket (s : t) (c : char) : bucket :=
  if _preserve_letter_distribution s then
    let n := nfkd_head [c] in
    if str_in (lower n) _CONSONANTS then Cons
    else if str_in (lower n) _VOWELS then Vowels
    else Alpha
  else Alpha.

(** [_pop_letter(c)], called with a one-character [c]: the body of the
    [try], then the [except IndexError] that turns an empty list into the
    empty string. *)
Definition _pop_letter_try (s : t) (c : char) : result (str * t) :=
  let b := pop_bucket s c in
  '(x, l) ← pop0 (get b s); Ok (x, set b l s).

Definition _pop_letter (s : t) (c : char) : result (str * t) :=
  match _pop_letter_try s c with
  | Raise IndexError => Ok ([], s)
  | r => r
  end.

(** The loop of [flush] over the characters of [_buf]. *)
Fixpoint flush_go (buf : list char) (s : t) (text : list str)
  : result (list str * t) :=
  match buf with
  | [] => Ok (text, s)
  | c :: buf' =>
      if isalpha c then
        '(x, s') ← _pop_letter s c;
        if isupper c then flush_go buf' s' (text ++ [str_upper x])
        else flush_go buf' s' (text ++ [x])
      else if isdigit c then
        '(d, l) ← pop0 (_digits s);
        flush_go buf' (set_digits l s) (text ++ [d])
      else flush_go buf' s (text ++ [[c]])
  end.

(** [flush] *)
Definition flush (s : t) : result (str * t) :=
  '(text, s') ← flush_go (_buf s) s [];
  Ok (concat text, clear s').

(** [scramble] *)
Definition scramble (s : t) (e : entropy) : result (str * t * entropy) :=
  let '(a, e) := shuffle (_alpha s) e in
  let s := set Alpha a s in
  let '(s, e) :=
    if _preserve_letter_distribution s then
      let '(c, e) := shuffle (_cons s) e in
      let s := set Cons c s in
      let '(v, e) := shuffle (_vowels s) e in
      (set Vowels v s, e)
    else (s, e) in
  let '(d, e) := shuffle (_digits s) e in
  let s := set_digits d s in
  '(text, s') ← flush s;
  Ok (text, s', e).

End WithLibrary.
End Scrambler.

(** ** [class HTMLScrambler]

    [HTMLParser.feed] tokenizes the page and calls one handler per token;
    the tokenizer belongs to the standard library, so a page enters the
    model as the sequence of its events. *)

Module HTMLScrambler.

Definition attrs := list (str * option str).

Inductive event :=
  | StartTag (tag : str) (a : attrs)
  | StartEndTag (tag : str) (a : attrs)
  | EndTag (tag : str)
  | Data (data : str)
  | EntityRef (name : str)
  | CharRef (name : str)
  | Comment (data : str)
  | Decl (decl : str).

Record t := mk {
  _base_url : str;
  _is_honeypot : bool;
  _source_encoding : option str;
  _target_encoding : option str;
  _suppress_scripts : bool;
  _buf : list str;
  _html : list str;
  _is_scrambling : bool;
  _is_script : bool;
  _is_xhtml : bool;
}.

Definition set_html (l : list str) (s : t) : t :=
  mk (_base_url s) (_is_honeypot s) (_source_encoding s) (_target_encoding s)
     (_suppress_scripts s) (_buf s) l (_is_scrambling s) (_is_script s)
     (_is_xhtml s).

Definition set_buf (l : list str) (s : t) : t :=
  mk (_base_url s) (_is_honeypot s) (_source_encoding s) (_target_encoding s)
     (_suppress_scripts s) l (_html s) (_is_scrambling s) (_is_script s)
     (_is_xhtml s).

Definition set_is_scrambling (b : bool) (s : t) : t :=
  mk (_base_url s) (_is_honeypot s) (_source_encoding s) (_target_encoding s)
     (_suppress_scripts s) (_buf s) (_html s) b (_is_script s) (_is_xhtml s).

Definition set_is_script (b : bool) (s : t) : t :=
  mk (_base_url s) (_is_honeypot s) (_source_encoding s) (_target_encoding s)
     (_suppress_scripts s) (_buf s) (_html s) (_is_scrambling s) b
     (_is_xhtml s).

Definition set_is_xhtml (b : bool) (s : t) : t :=
  mk (_base_url s) (_is_honeypot s) (_source_encoding s) (_target_encoding s)
     (_suppress_scripts s) (_buf s) (_html s) (_is_scrambling s)
     (_is_script s) b.

(** The marker of a piece of markup in [_buf]. *)
Definition marker : str := py "<>".

(** [self._html.append(m); self._buf.append("<>")] *)
Definition emit (m : str) (s : t) : t :=
  set_buf (_buf s ++ [marker]) (set_html (_html s ++ [m]) s).

Definition dquote : str := [34%N].

Definition _DONT_SCRAMBLE : list str := [py "script"; py "style"].

Definition _VOID_ELEMENTS : list str :=
  [py "area"; py "base"; py "br"; py "col"; py "embed"; py "hr"; py "img";
   py "input"; py "link"; py "meta"; py "param"; py "source"; py "track";
   py "wbr"; py "command"; py "keygen"; py "menuitem"].

(** The truth value of an encoding parameter: [None] and the empty string
    are false. *)
Definition truthy (o : option str) : bool :=
  match o with
  | Some (_ :: _) => true
  | _ => false
  end.

(** [__init__]; [or] on the two flags. *)
Definition init (base_url : str) (is_honeypot : bool)
    (source_encoding target_encoding : option str) (suppress_scripts : bool)
  : t :=
  mk base_url is_honeypot source_encoding target_encoding
     (suppress_scripts || is_honeypot) [] [] true false false.

Section WithLibrary.
Context `{PyLib}.

(** The loop of the [srcset] branch. *)
Fixpoint srcset_items (base : str) (items : list str) : result (list str) :=
  match items with
  | [] => Ok []
  | item :: rest =>
      x ← (if str_in (py " ") item then
             let '(src, size) := split_first 32%N item in
             src ← urljoin base src;
             Ok (src ++ py " " ++ size)
           else urljoin base item);
      xs ← srcset_items base rest;
      Ok (x :: xs)
  end.

(** [_process_attr_value] *)
Definition _process_attr_value (s : t) (tag attr value : str) (e : entropy)
  : result (str * entropy) :=
  '(value, e) ←
    (if bool_decide (tag = py "a") && bool_decide (attr = py "href")
        || bool_decide (tag ∈ [py "frame"; py "iframe"])
           && bool_decide (attr = py "src")
     then
       joined ← urljoin (_base_url s) value;
       target ← quote joined;
       if _is_honeypot s then Ok (py "?honeypot=1&url=" ++ target, e)
       else Ok (py "?url=" ++ target, e)
     else if bool_decide (attr ∈ [py "action"; py "href"; py "src"]) then
       joined ← urljoin (_base_url s) value;
       Ok (joined, e)
     else if bool_decide (attr = py "srcset") then
       srcset ← srcset_items (_base_url s) (strip <$> str_split (py ",") value);
       Ok (str_join (py ", ") srcset, e)
     else if bool_decide
               (attr ∈ [py "alt"; py "placeholder"; py "title"; py "value"])
     then
       let scrambler := Scrambler.feed (Scrambler.init true) value in
       '(v, _, e) ← Scrambler.scramble scrambler e;
       Ok (v, e)
     else Ok (value, e));
  Ok (html_escape value, e).

(** The attribute loop of [_build_starttag]. *)
Fixpoint build_attrs (s : t) (tag : str) (a : attrs) (tag_data : list str)
    (e : entropy) : result (list str * entropy) :=
  match a with
  | [] => Ok (tag_data, e)
  | (attr, value) :: rest =>
      let tag_data := tag_data ++ [py " "; attr] in
      match value with
      | Some v =>
          '(pv, e) ← _process_attr_value s tag attr v e;
          build_attrs s tag rest (tag_data ++ [py "=" ++ dquote; pv; dquote]) e
      | None =>
          if _is_xhtml s then
            build_attrs s tag rest
              (tag_data ++ [py "=" ++ dquote; attr; dquote]) e
          else build_attrs s tag rest tag_data e
      end
  end.

(** [_build_starttag] *)
Definition _build_starttag (s : t) (tag : str) (a : attrs) (is_empty : bool)
    (e : entropy) : result (str * entropy) :=
  '(tag_data, e) ← build_attrs s tag a [py "<"; tag] e;
  let tag_data :=
    if bool_decide (tag = py "input") then
      if _is_xhtml s
      then tag_data ++ [py " disabled"; py "=" ++ dquote ++ py "disabled" ++ dquote]
      else tag_data ++ [py " disabled"]
    else tag_data in
  let tag_data :=
    if _is_xhtml s && (is_empty || bool_decide (tag ∈ _VOID_ELEMENTS))
    then tag_data ++ [py " />"]
    else tag_data ++ [py ">"] in
  Ok (concat tag_data, e).

(** [handle_starttag] *)
Definition handle_starttag (s : t) (tag : str) (a : attrs) (e : entropy)
  : result (t * entropy) :=
  if bool_decide (tag = py "script") then
    let s := set_is_script true s in
    if _suppress_scripts s then Ok (s, e)
    else '(m, e) ← _build_starttag s tag a false e; Ok (emit m s, e)
  else
    let s := if bool_decide (tag ∈ _DONT_SCRAMBLE)
             then set_is_scrambling false s else s in
    '(m, e) ← _build_starttag s tag a false e; Ok (emit m s, e).

(** [handle_startendtag] *)
Definition handle_startendtag (s : t) (tag : str) (a : attrs) (e : entropy)
  : result (t * entropy) :=
  if bool_decide (tag = py "script") && _suppress_scripts s then Ok (s, e)
  else '(m, e) ← _build_starttag s tag a true e; Ok (emit m s, e).

(** [handle_endtag] *)
Definition handle_endtag (s : t) (tag : str) : t :=
  if bool_decide (tag = py "script") then
    let s := set_is_script false s in
    if _suppress_scripts s then s
    else emit (py "</" ++ tag ++ py ">") s
  else
    let s := if bool_decide (tag ∈ _DONT_SCRAMBLE)
             then set_is_scrambling true s else s in
    emit (py "</" ++ tag ++ py ">") s.

(** [handle_data] *)
Definition handle_data (s : t) (data : str) : t :=
  if _is_script s && _suppress_scripts s then
    emit (py "<!-- script removed -->") s
  else if _is_scrambling s then set_buf (_buf s ++ [data]) s
  else emit data s.

(** [handle_entityref], [handle_charref], [handle_comment] *)
Definition handle_entityref (s : t) (name : str) : t :=
  emit (py "&" ++ name ++ py ";") s.

Definition handle_charref (s : t) (name : str) : t :=
  emit (py "&#" ++ name ++ py ";") s.

Definition handle_comment (s : t) (data : str) : t :=
  emit (py "<!--" ++ data ++ py "-->") s.

(** [handle_decl] *)
Definition handle_decl (s : t) (decl : str) : t :=
  let s := emit (py "<!" ++ decl ++ py ">") s in
  if str_in (py "//DTD XHTML ") decl then set_is_xhtml true s else s.

(** The handler the tokenizer calls for an event, and [feed] as the run
    over the events of the page. *)
Definition handle (s : t) (ev : event) (e : entropy) : result (t * entropy) :=
  match ev with
  | StartTag tag a => handle_starttag s tag a e
  | StartEndTag tag a => handle_startendtag s tag a e
  | EndTag tag => Ok (handle_endtag s tag, e)
  | Data data => Ok (handle_data s data, e)
  | EntityRef name => Ok (handle_entityref s name, e)
  | CharRef name => Ok (handle_charref s name, e)
  | Comment data => Ok (handle_comment s data, e)
  | Decl decl => Ok (handle_decl s decl, e)
  end.

Fixpoint feed (s : t) (evs : list event) (e : entropy) : result (t * entropy) :=
  match evs with
  | [] => Ok (s, e)
  | ev :: evs' => '(s, e) ← handle s ev e; feed s evs' e
  end.

(** [chunk.encode(target, "xmlcharrefreplace")]: a character the codec
    cannot encode is replaced by its decimal reference, which is encoded in
    turn. *)
Fixpoint encode_strict (C : Codec) (s : str) : result (list N) :=
  match s with
  | [] => Ok []
  | c :: s' =>
      match encode_char C c with
      | Some b => bs ← encode_strict C s'; Ok (b ++ bs)
      | None => Raise UnicodeError
      end
  end.

Definition charref (c : char) : str := py "&#" ++ decimal c ++ py ";".

Fixpoint encode_xmlcharrefreplace (C : Codec) (s : str) : result (list N) :=
  match s with
  | [] => Ok []
  | c :: s' =>
      b ← match encode_char C c with
          | Some b => Ok b
          | None => encode_strict C (charref c)
          end;
      bs ← encode_xmlcharrefreplace C s';
      Ok (b ++ bs)
  end.

Definition codec (name : str) : result Codec :=
  match lookup_codec name with
  | Some C => Ok C
  | None => Raise LookupError
  end.

(** [chunk.encode(target, "xmlcharrefreplace").decode(source, "ignore")] *)
Definition convert (source target chunk : str) : result str :=
  Ct ← codec target;
  bs ← encode_xmlcharrefreplace Ct chunk;
  Cs ← codec source;
  Ok (decode_ignore Cs bs).

(** The loop of [scramble] over the chunks, popping [_html]. *)
Fixpoint scramble_go (s : t) (chunks : list str) (html : list str)
    (text : list str) : result (list str * list str) :=
  match chunks with
  | [] => Ok (text, html)
  | chunk :: rest =>
      x ← (if truthy (_source_encoding s) && truthy (_target_encoding s) then
             convert (default [] (_source_encoding s))
                     (default [] (_target_encoding s)) chunk
           else Ok chunk);
      match html with
      | m :: html' => scramble_go s rest html' (text ++ [x; m])
      | [] => scramble_go s rest [] (text ++ [x])
      end
  end.

(** [scramble] *)
Definition scramble (s : t) (e : entropy) : result (str * t * entropy) :=
  let scrambler := Scrambler.feed (Scrambler.init true) (concat (_buf s)) in
  '(out, _, e) ← Scrambler.scramble scrambler e;
  '(text, html) ← scramble_go s (str_split marker out) (_html s) [];
  Ok (concat text, set_html html s, e).

(** The core of the module-level [scramble(url)] for an HTML page:
    construct, [feed], [scramble()].  The fetch, the decoding of the bytes
    and the re-encoding for printing lie outside. *)
Definition pipeline (base_url : str) (is_honeypot : bool)
    (source_encoding target_encoding : option str) (suppress_scripts : bool)
    (page : list event) (e : entropy) : result str :=
  '(s, e) ← feed (init base_url is_honeypot source_encoding target_encoding
                       suppress_scripts) page e;
  '(doc, _, _) ← scramble s e;
  Ok doc.

End WithLibrary.
End HTMLScrambler.

(** ** A concrete library for closed examples

    The tables of CPython 3.11 (Unicode 14) on the code points the examples
    use: ASCII, U+00AA (feminine ordinal indicator, a letter without case
    whose NFKD form is [a]), U+00C9 and U+00E9 (E with acute, capital and
    small), U+0130 (capital I with dot above), U+0307 (combining dot above),
    U+20AC (euro sign) and U+2102 (double-struck capital C).  Other code
    points are treated as caseless symbols; none occurs in an example. *)

Module CPython.

Definition ascii_upper (c : char) : bool := ((65 <=? c) && (c <=? 90))%N.
Definition ascii_lower (c : char) : bool := ((97 <=? c) && (c <=? 122))%N.
Definition ascii_digit (c : char) : bool := ((48 <=? c) && (c <=? 57))%N.

Definition U_00AA : char := 170%N.
Definition U_00C9 : char := 201%N.
Definition U_00E9 : char := 233%N.
Definition U_0130 : char := 304%N.
Definition U_0307 : char := 775%N.
Definition U_20AC : char := 8364%N.
Definition U_2102 : char := 8450%N.

Definition isalpha (c : char) : bool :=
  ascii_upper c || ascii_lower c
  || bool_decide (c ∈ [U_00AA; U_00C9; U_00E9; U_0130; U_2102]).

Definition isupper (c : char) : bool :=
  ascii_upper c || bool_decide (c ∈ [U_00C9; U_0130; U_2102]).

Definition isspace (c : char) : bool :=
  ((9 <=? c) && (c <=? 13) || (28 <=? c) && (c <=? 32))%N.

(** [U+0130] lower-cases to [i] followed by the combining dot; [U+2102]
    and [U+00AA] have no case mappings. *)
Definition lower (c : char) : str :=
  if ascii_upper c then [(c + 32)%N]
  else if bool_decide (c = U_00C9) then [U_00E9]
  else if bool_decide (c = U_0130) then [105%N; U_0307]
  else [c].

Definition upper (c : char) : str :=
  if ascii_lower c then [(c - 32)%N]
  else if bool_decide (c = U_00E9) then [U_00C9]
  else [c].

(** NFKD decomposes [U+0130] to [I] + [U+0307], [U+2102] to [C], [U+00AA]
    to [a], and [U+00C9] and [U+00E9] to [E] and [e] + [U+0301]. *)
Definition nfkd_head (s : str) : char :=
  match s with
  | [] => 0%N
  | c :: _ =>
      if bool_decide (c = U_0130) then 73%N
      else if bool_decide (c = U_2102) then 67%N
      else if bool_decide (c = U_00AA) then 97%N
      else if bool_decide (c = U_00C9) then 69%N
      else if bool_decide (c = U_00E9) then 101%N
      else c
  end.

(** *** [urllib.parse.urljoin]

    After [Lib/urllib/parse.py], without the stripping of control
    characters and without the checks of bracketed hosts and of the
    normalised netloc, which raise [ValueError]. *)

Definition uses_relative : list str :=
  [[]; py "ftp"; py "http"; py "gopher"; py "nntp"; py "imap"; py "wais";
   py "file"; py "https"; py "shttp"; py "mms"; py "prospero"; py "rtsp";
   py "rtspu"; py "sftp"; py "svn"; py "svn+ssh"; py "ws"; py "wss"].

Definition uses_netloc : list str :=
  [[]; py "ftp"; py "http"; py "gopher"; py "nntp"; py "telnet"; py "imap";
   py "wais"; py "file"; py "mms"; py "https"; py "shttp"; py "snews";
   py "prospero"; py "rtsp"; py "rtspu"; py "rsync"; py "svn"; py "svn+ssh";
   py "sftp"; py "nfs"; py "git"; py "git+ssh"; py "ws"; py "wss"].

Definition uses_params : list str :=
  [[]; py "ftp"; py "hdl"; py "prospero"; py "http"; py "imap"; py "https";
   py "shttp"; py "rtsp"; py "rtspu"; py "sip"; py "sips"; py "mms";
   py "sftp"; py "tel"].

Definition scheme_char (c : char) : bool :=
  ascii_upper c || ascii_lower c || ascii_digit c || bool_decide (c ∈ py "+-.").

(** [s.find(c)] and [s.rfind(c)] *)
Fixpoint find (c : char) (s : str) : option nat :=
  match s with
  | [] => None
  | x :: s' => if bool_decide (x = c) then Some 0 else S <$> find c s'
  end.

Fixpoint rfind (c : char) (s : str) : option nat :=
  match s with
  | [] => None
  | x :: s' =>
      match rfind c s' with
      | Some i => Some (S i)
      | None => if bool_decide (x = c) then Some 0 else None
      end
  end.

(** [_splitnetloc(url, 2)] on the text after the two slashes *)
Fixpoint splitnetloc (s : str) : str * str :=
  match s with
  | [] => ([], [])
  | c :: s' =>
      if bool_decide (c ∈ py "/?#") then ([], s)
      else let '(a, b) := splitnetloc s' in (c :: a, b)
  end.

Record parts := {
  scheme : str; netloc : str; path : str; params : str; query : str;
  fragment : str;
}.

Definition splitparams (url : str) : str * str :=
  let from := default 0 (rfind 47%N url) in
  match find 59%N (drop from url) with
  | Some i => (take (from + i) url, drop (S (from + i)) url)
  | None => (url, [])
  end.

(** [urlparse(url, scheme)] *)
Definition urlparse (url default_scheme : str) : parts :=
  let '(sch, url) :=
    match find 58%N url, url with
    | Some (S i), c :: _ =>
        if (ascii_upper c || ascii_lower c) && forallb scheme_char (take (S i) url)
        then ((fun x => if ascii_upper x then (x + 32)%N else x) <$> take (S i) url,
              drop (S (S i)) url)
        else (default_scheme, url)
    | _, _ => (default_scheme, url)
    end in
  let '(net, url) :=
    if startswith (py "//") url then splitnetloc (drop 2 url) else ([], url) in
  let '(url, frag) :=
    if str_in (py "#") url then split_first 35%N url else (url, []) in
  let '(url, qry) :=
    if str_in (py "?") url then split_first 63%N url else (url, []) in
  let '(url, prm) :=
    if bool_decide (sch ∈ uses_params) && str_in (py ";") url
    then splitparams url else (url, []) in
  {| scheme := sch; netloc := net; path := url; params := prm; query := qry;
     fragment := frag |}.

(** [urlunparse] *)
Definition urlunparse (p : parts) : str :=
  let url := match params p with [] => path p | _ => path p ++ py ";" ++ params p end in
  let url :=
    if negb (bool_decide (netloc p = []))
       || negb (bool_decide (scheme p = [])) && bool_decide (scheme p ∈ uses_netloc)
          && negb (startswith (py "//") url)
    then py "//" ++ netloc p ++
         (if negb (bool_decide (url = [])) && negb (startswith (py "/") url)
          then py "/" ++ url else url)
    else url in
  let url := match scheme p with [] => url | _ => scheme p ++ py ":" ++ url end in
  let url := match query p with [] => url | _ => url ++ py "?" ++ query p end in
  match fragment p with [] => url | _ => url ++ py "#" ++ fragment p end.

(** The loop over the segments: [..] pops, [.] is skipped. *)
Fixpoint resolve (segments resolved : list str) : list str :=
  match segments with
  | [] => resolved
  | seg :: rest =>
      if bool_decide (seg = py "..") then resolve rest (removelast resolved)
      else if bool_decide (seg = py ".") then resolve rest resolved
      else resolve rest (resolved ++ [seg])
  end.

(** [segments[1:-1] = filter(None, segments[1:-1])] *)
Definition squeeze (segments : list str) : list str :=
  match segments with
  | first :: (_ :: _) as rest =>
      first :: List.filter (fun x => negb (bool_decide (x = []))) (removelast rest)
            ++ [List.last rest []]
  | _ => segments
  end.

Definition urljoin (base url : str) : result str :=
  match base, url with
  | [], _ => Ok url
  | _, [] => Ok base
  | _, _ =>
      let b := urlparse base [] in
      let u := urlparse url (scheme b) in
      if negb (bool_decide (scheme u = scheme b))
         || negb (bool_decide (scheme u ∈ uses_relative))
      then Ok url
      else if bool_decide (scheme u ∈ uses_netloc)
              && negb (bool_decide (netloc u = []))
      then Ok (urlunparse u)
      else
        let net := if bool_decide (scheme u ∈ uses_netloc)
                   then netloc b else netloc u in
        if bool_decide (path u = []) && bool_decide (params u = []) then
          Ok (urlunparse
                {| scheme := scheme u; netloc := net; path := path b;
                   params := params b;
                   query := match query u with [] => query b | q => q end;
                   fragment := fragment u |})
        else
          let base_parts := str_split (py "/") (path b) in
          let base_parts :=
            if bool_decide (List.last base_parts [] = []) then base_parts
            else removelast base_parts in
          let segments :=
            if startswith (py "/") (path u) then str_split (py "/") (path u)
            else squeeze (base_parts ++ str_split (py "/") (path u)) in
          let resolved := resolve segments [] in
          let resolved :=
            if bool_decide (List.last segments [] ∈ [py "."; py ".."])
            then resolved ++ [[]] else resolved in
          let joined := match str_join (py "/") resolved with
                        | [] => py "/"
                        | j => j
                        end in
          Ok (urlunparse
                {| scheme := scheme u; netloc := net; path := joined;
                   params := params u; query := query u;
                   fragment := fragment u |})
  end.

(** *** Codecs: ASCII, Latin-1 and UTF-16 (big endian) *)

Definition ascii_codec : Codec := {|
  encode_char c := if (c <? 128)%N then Some [c] else None;
  decode_ignore bs := List.filter (fun b => (b <? 128)%N) bs;
|}.

Definition latin1_codec : Codec := {|
  encode_char c := if (c <? 256)%N then Some [c] else None;
  decode_ignore bs := bs;
|}.

Definition surrogate (c : N) : bool := ((55296 <=? c) && (c <? 57344))%N.

Fixpoint utf16be_decode (bs : list N) : str :=
  match bs with
  | b1 :: b2 :: rest =>
      let u := (b1 * 256 + b2)%N in
      if ((55296 <=? u) && (u <? 56320))%N then
        match rest with
        | b3 :: b4 :: rest' =>
            let v := (b3 * 256 + b4)%N in
            if ((56320 <=? v) && (v <? 57344))%N
            then (65536 + (u - 55296) * 1024 + (v - 56320))%N
                 :: utf16be_decode rest'
            else utf16be_decode rest
        | _ => []
        end
      else if surrogate u then utf16be_decode rest
      else u :: utf16be_decode rest
  | _ => []
  end.

Definition utf16be_codec : Codec := {|
  encode_char c :=
    if surrogate c then None
    else if (c <? 65536)%N then Some [c / 256; c mod 256]%N
    else
      let v := (c - 65536)%N in
      let hi := (55296 + v / 1024)%N in
      let lo := (56320 + v mod 1024)%N in
      Some [hi / 256; hi mod 256; lo / 256; lo mod 256]%N;
  decode_ignore := utf16be_decode;
|}.

Definition lookup_codec (name : str) : option Codec :=
  if bool_decide (name = py "ascii") then Some ascii_codec
  else if bool_decide (name = py "latin-1") then Some latin1_codec
  else if bool_decide (name = py "utf-16-be") then Some utf16be_codec
  else None.

#[global] Instance lib : PyLib :=
  Build_PyLib isalpha ascii_digit isupper isspace lower upper nfkd_head
    urljoin lookup_codec.

End CPython.

(** ** Vocabulary of the properties *)

(** Two streams of draws for closed examples. *)
Definition zeros : entropy := fun _ => 0.
Definition ones : entropy := fun _ => 1.

(** What scrambling is meant to keep of a character: that it is an
    upper-case letter, another letter, a digit, or the very character. *)
Inductive shape := Upper | Lower | Digit | Literal (c : char).


(** The characters [html.escape] replaces, with the two of the marker
    among them. *)
Definition markup_chars : str := py "&<>'" ++ HTMLScrambler.dquote.

Definition special (c : char) : bool := bool_decide (c ∈ markup_chars).

Section Vocabulary.
Context `{PyLib}.

(** Feeding a text to a fresh [Scrambler()] and calling [scramble()]. *)
Definition scramble_text (text : str) (e : entropy) : result str :=
  '(out, _, _) ← Scrambler.scramble (Scrambler.feed (Scrambler.init true) text) e;
  Ok out.

Definition shape_of (c : char) : shape :=
  if isalpha c then (if isupper c then Upper else Lower)
  else if isdigit c then Digit
  else Literal c.

(** A letter is regular when its case mappings are single letters of the
    expected case and [feed] and [_pop_letter] agree on its list. *)
Definition regular (c : char) : bool :=
  if isalpha c then
    match lower c with
    | [l] =>
        match upper l with
        | [u] =>
            isalpha l && negb (isupper l) && isalpha u && isupper u
            && bool_decide (Scrambler.feed_bucket (Scrambler.init true) [l]
                            = Scrambler.pop_bucket (Scrambler.init true) c)
        | _ => false
        end
    | _ => false
    end
  else true.



(** The characters of markup syntax are neither letters nor digits. *)
Definition markup_literal : bool :=
  forallb (fun c => negb (isalpha c) && negb (isdigit c)) markup_chars.

(** The strings [feed] routes to a letter list and to the digit list. *)
Definition routed (b : Scrambler.bucket) (text : str) : list str :=
  omap (fun c =>
          if isalpha c
             && bool_decide (Scrambler.feed_bucket (Scrambler.init true) (lower c) = b)
          then Some (lower c) else None) text.

Definition routed_digits (text : str) : list str :=
  omap (fun c => if negb (isalpha c) && isdigit c then Some [c] else None) text.

(** The number of pops replay makes from a letter list and from the digit
    list. *)
Fixpoint need (b : Scrambler.bucket) (buf : list char) : nat :=
  match buf with
  | [] => 0
  | c :: buf' =>
      (if isalpha c
          && bool_decide (Scrambler.pop_bucket (Scrambler.init true) c = b)
       then 1 else 0) + need b buf'
  end.

Fixpoint need_digits (buf : list char) : nat :=
  match buf with
  | [] => 0
  | c :: buf' =>
      (if negb (isalpha c) && isdigit c then 1 else 0) + need_digits buf'
  end.

(** The strings replay can pop without changing a shape. *)
Definition good_letter (x : str) : Prop :=
  ∃ l u, x = [l] ∧ upper l = [u] ∧ shape_of l = Lower ∧ shape_of u = Upper.

Definition good_digit (x : str) : Prop :=
  ∃ d, x = [d] ∧ shape_of d = Digit.

(** The scrambler holds enough good strings to replay [buf]. *)
Record stocked (buf : list char) (s : Scrambler.t) : Prop := {
  stocked_pld : Scrambler._preserve_letter_distribution s = true;
  stocked_letters b : need b buf ≤ length (Scrambler.get b s);
  stocked_digits : need_digits buf ≤ length (Scrambler._digits s);
  stocked_good b : Forall good_letter (Scrambler.get b s);
  stocked_good_digits : Forall good_digit (Scrambler._digits s);
}.

(** What an instance goes through in its life: handler calls and calls of
    [scramble]. *)
Inductive step : HTMLScrambler.t → HTMLScrambler.t → Prop :=
  | step_handle s ev e s' e' :
      HTMLScrambler.handle s ev e = Ok (s', e') → step s s'
  | step_scramble s e doc s' e' :
      HTMLScrambler.scramble s e = Ok (doc, s', e') → step s s'.

(** Pieces of text with one queue entry after each, as long as the queue
    lasts. *)
Fixpoint weave (pieces html : list str) : list str :=
  match pieces with
  | [] => []
  | p :: ps =>
      match html with
      | m :: html' => p :: m :: weave ps html'
      | [] => p :: weave ps []
      end
  end.

(** A page whose text and attribute values are made of regular
    characters. *)
Definition regular_attrs (a : HTMLScrambler.attrs) : bool :=
  forallb (fun av => forallb regular (default [] av.2)) a.

Definition regular_event (ev : HTMLScrambler.event) : bool :=
  match ev with
  | HTMLScrambler.StartTag _ a | HTMLScrambler.StartEndTag _ a => regular_attrs a
  | HTMLScrambler.Data data => forallb regular data
  | _ => true
  end.

(** A page whose text is written over the characters [P]; a set of
    characters closed under the case mappings the scrambler applies; and a
    conversion that acts on the strings over [P] character by character,
    as [f]. *)
Definition in_alphabet (P : char → bool) (ev : HTMLScrambler.event) : bool :=
  match ev with
  | HTMLScrambler.Data data => forallb P data
  | _ => true
  end.

Definition case_closed (P : char → bool) : Prop :=
  ∀ c l u, P c = true → isalpha c = true → lower c = [l] → upper l = [u] →
           P l = true ∧ P u = true.

Definition converts_by (source target : str) (P : char → bool)
    (f : char → str) : Prop :=
  ∀ chunk, forallb P chunk = true →
           HTMLScrambler.convert source target chunk = Ok (chunk ≫= f).

(** Two strings of the same shape agree in length, in every character
    that is neither letter nor digit, and in where they hold upper-case
    letters, other letters and digits. *)
Definition same_shape (x y : str) : Prop := shape_of <$> x = shape_of <$> y.

(** The outcomes of two runs: the same exception, or related values. *)
Definition same_outcome {A} (R : A → A → Prop) (r1 r2 : result A) : Prop :=
  match r1, r2 with
  | Ok a1, Ok a2 => R a1 a2
  | Raise x1, Raise x2 => x1 = x2
  | _, _ => False
  end.

(** The states of two runs on one page: equal but for the letters and
    digits inside the queue entries. *)
Record twin (s1 s2 : HTMLScrambler.t) : Prop := {
  twin_state : HTMLScrambler.set_html [] s1 = HTMLScrambler.set_html [] s2;
  twin_html :
    Forall2 same_shape (HTMLScrambler._html s1) (HTMLScrambler._html s2);
}.

End Vocabulary.

(** A decoder passes ASCII through when a non-empty run of ASCII bytes
    decodes to itself whatever surrounds it; an encoder is ASCII-compatible
    when it encodes an ASCII character as the byte of the same value. *)
Definition ascii_transparent (C : Codec) : Prop :=
  ∀ l a r, a ≠ [] → Forall (fun b => (b < 128)%N) a →
    decode_ignore C (l ++ a ++ r) = decode_ignore C l ++ a ++ decode_ignore C r.

Definition ascii_compatible (C : Codec) : Prop :=
  ∀ c, (c < 128)%N → encode_char C c = Some [c].

(** ** Vocabulary of the further properties *)

(** A text run without the character [<]. *)
Definition lt_free (x : str) : bool :=
  forallb (fun c => negb (bool_decide (c = 60%N))) x.

Definition plain_event (ev : HTMLScrambler.event) : bool :=
  match ev with
  | HTMLScrambler.Data data => lt_free data
  | _ => true
  end.

(** The number of markers in a text buffer. *)
Fixpoint count_markers (buf : list str) : nat :=
  match buf with
  | [] => 0
  | x :: buf' =>
      (if bool_decide (x = HTMLScrambler.marker) then 1 else 0)
      + count_markers buf'
  end.

(** The segments in the order the handlers pushed them: a text run stands
    for itself, a marker for the next entry of the queue. *)
Fixpoint interleave (buf html : list str) : list str :=
  match buf with
  | [] => []
  | x :: buf' =>
      if bool_decide (x = HTMLScrambler.marker) then
        match html with
        | m :: html' => m :: interleave buf' html'
        | [] => interleave buf' []
        end
      else x :: interleave buf' html
  end.

(** The text between the markers of a buffer, [cur] being the text
    gathered since the last marker. *)
Fixpoint runs (buf : list str) (cur : str) : list str :=
  match buf with
  | [] => [cur]
  | x :: buf' =>
      if bool_decide (x = HTMLScrambler.marker) then cur :: runs buf' []
      else runs buf' (cur ++ x)
  end.

(** The buffer and the queue are aligned: one queue entry for each marker,
    and no other entry of the buffer holds a [<]. *)
Definition aligned_with (s : HTMLScrambler.t) : Prop :=
  Forall (fun x => x = HTMLScrambler.marker ∨ lt_free x = true)
         (HTMLScrambler._buf s)
  ∧ count_markers (HTMLScrambler._buf s) = length (HTMLScrambler._html s).

Section MoreVocabulary.
Context `{PyLib}.

(** The states a scrambler reaches through its methods. *)
Inductive reachable : Scrambler.t → Prop :=
  | reach_init pld : reachable (Scrambler.init pld)
  | reach_feed s text : reachable s → reachable (Scrambler.feed s text)
  | reach_clear s : reachable s → reachable (Scrambler.clear s)
  | reach_scramble s e out s' e' :
      reachable s → Scrambler.scramble s e = Ok (out, s', e') → reachable s'.

(** A regular letter is faithful when lower-casing either of its case
    forms gives its lower-case form back. *)
Definition faithful (c : char) : bool :=
  regular c
  && (if isalpha c then
        match lower c with
        | [l] =>
            match upper l with
            | [u] => bool_decide (lower l = [l]) && bool_decide (lower u = [l])
            | _ => false
            end
        | _ => false
        end
      else true).

(** The strings of the list [b] of a scrambler fed with faithful text. *)
Definition good_in (b : Scrambler.bucket) (x : str) : Prop :=
  ∃ l u, x = [l] ∧ upper l = [u] ∧ isalpha l = true ∧ isalpha u = true
         ∧ lower l = [l] ∧ lower u = [l]
         ∧ Scrambler.feed_bucket (Scrambler.init true) [l] = b.

End MoreVocabulary.

(** ** The CGI front end: [main]

    [main] answers a request by printing lines and by calling the
    module-level [scramble(url, is_honeypot)], which fetches the page.  A
    run is the list of these actions; the fetch itself and
    [urllib.parse.urlparse] belong to the environment and are parameters.
    A request is the pair of the form fields [url] and [honeypot], absent
    or present. *)

Module CGI.

(** The request environment the module reads when it is loaded. *)
Record environ := {
  HTTP_HOST : str;
  SCRIPT_NAME : str;
  SERVER_PORT : N;
  SERVER_SOFTWARE : str;
  SCRAMBLER_ALLOWLIST : str;
}.

Record form := {
  form_url : option str;
  form_honeypot : option str;
}.

(** The attributes of a parsed URL that [main] reads; reading [port]
    raises [ValueError] when the port is not a number in range. *)
Record parsed := {
  hostname : option str;
  path : str;
  scheme : str;
  port : result (option N);
}.

Inductive parse_outcome :=
  | Parsed (p : parsed)
  | ParseError (message : str).

(** How the call of [scramble(url, is_honeypot)] ends, as far as [main]
    handles it. *)
Inductive fetch_outcome :=
  | Returned
  | HTTPError (code : N) (reason : str).

Inductive action :=
  | Print (line : str)
  | Scramble (url : str) (is_honeypot : bool)
  | Uncaught (e : exn).

(** [_scrambler_error] *)
Definition _scrambler_error (code : N) (message : str) : list action :=
  [Print (py "Status: " ++ decimal code);
   Print (py "Content-type: text/plain");
   Print [];
   Print message].

Section WithLibrary.
Context `{PyLib}.
Variable urlparse : str → parse_outcome.
Variable scramble : str → bool → fetch_outcome.

(** [ALLOWED_DOMAINS] *)
Definition ALLOWED_DOMAINS (env : environ) : list str :=
  HTTP_HOST env :: (strip <$> str_split (py ",") (SCRAMBLER_ALLOWLIST env)).

(** [DEFAULT_URL] *)
Definition DEFAULT_URL (env : environ) : str :=
  if startswith (py "SimpleHTTP/") (SERVER_SOFTWARE env) then
    py "https://en.wikipedia.org/wiki/Main_Page"
  else
    (if bool_decide (SERVER_PORT env = 443%N) then py "https" else py "http")
    ++ py "://" ++ HTTP_HOST env
    ++ (if bool_decide (SERVER_PORT env ∈ [80%N; 443%N]) then []
        else py ":" ++ decimal (SERVER_PORT env))
    ++ py "/".

(** The last part of [main]: the allowlist and the call. *)
Definition dispatch (env : environ) (f : form) (url : str) (p : parsed)
  : list action :=
  let is_honeypot := HTMLScrambler.truthy (form_honeypot f) in
  let allowed_url :=
    if bool_decide (url = DEFAULT_URL env) then true
    else if is_honeypot then bool_decide (hostname p = Some (HTTP_HOST env))
    else bool_decide (hostname p ∈ Some <$> ALLOWED_DOMAINS env) in
  if allowed_url then
    Scramble url is_honeypot ::
    match scramble url is_honeypot with
    | Returned => []
    | HTTPError code reason =>
        _scrambler_error code (decimal code ++ py " " ++ reason)
    end
  else
    _scrambler_error 403
      (py "Sorry, " ++ default (py "None") (hostname p)
       ++ py " is not on the Scrambler's allowlist.").

(** [main] *)
Definition main (env : environ) (f : form) : list action :=
  let url := default (DEFAULT_URL env) (form_url f) in
  match (if str_in (py "://") url then Ok url
         else urljoin (DEFAULT_URL env) url) with
  | Raise e => [Uncaught e]
  | Ok url =>
      match urlparse url with
      | ParseError message => _scrambler_error 500 message
      | Parsed p =>
          if bool_decide (hostname p = Some (HTTP_HOST env))
             && bool_decide (path p = SCRIPT_NAME env)
          then
            _scrambler_error 403
              (py "Sorry, the Scrambler cannot scramble itself.")
            ++ dispatch env f url p
          else if negb (bool_decide (scheme p ∈ [py "http"; py "https"]))
          then
            _scrambler_error 500
              (py "Unsupported URL scheme: '" ++ scheme p ++ py "'")
          else
            match port p with
            | Raise e => [Uncaught e]
            | Ok pt =>
                if negb (bool_decide (pt = None)
                         || bool_decide (scheme p = py "http")
                            && bool_decide (pt = Some 80%N)
                         || bool_decide (scheme p = py "https")
                            && bool_decide (pt = Some 443%N))
                then
                  _scrambler_error 500
                    (py "Invalid port for URL scheme '" ++ scheme p
                     ++ py "': " ++ decimal (default 0%N pt))
                else dispatch env f url p
            end
      end
  end.

End WithLibrary.
End CGI.

(** A parser, a fetch and an environment for closed examples.  The parser
    reads the parts [CPython.urlparse] finds and takes the authority for
    the host name, as [urllib.parse.urlparse] does when the authority is a
    lower-case name without user, password or port; the fetch finds every
    page but those whose URL contains [missing]. *)
Definition example_urlparse (url : str) : CGI.parse_outcome :=
  let p := CPython.urlparse url [] in
  CGI.Parsed
    {| CGI.hostname := match CPython.netloc p with
                       | [] => None
                       | host => Some host
                       end;
       CGI.path := CPython.path p;
       CGI.scheme := CPython.scheme p;
       CGI.port := Ok None |}.

Definition example_fetch (url : str) (is_honeypot : bool) : CGI.fetch_outcome :=
  if str_in (py "missing") url then CGI.HTTPError 404 (py "Not Found")
  else CGI.Returned.

Definition example_environ : CGI.environ :=
  {| CGI.HTTP_HOST := py "localhost";
     CGI.SCRIPT_NAME := py "/cgi-bin/scrambler.py";
     CGI.SERVER_PORT := 80;
     CGI.SERVER_SOFTWARE := py "Apache";
     CGI.SCRAMBLER_ALLOWLIST := py "example.com, example.org" |}.

(** A set of characters and a character-wise conversion for closed
    examples: the ASCII characters together with the characters that are
    neither letters nor digits, and the map that keeps an ASCII character
    and replaces any other by its decimal reference. *)
Definition ascii_or_symbol (c : char) : bool :=
  (c <? 128)%N || negb (isalpha c || isdigit c).

Definition reference_beyond_ascii (c : char) : str :=
  if (c <? 128)%N then [c] else HTMLScrambler.charref c.

(** * Properties *)

(** ** The shuffle permutes *)

Section ShuffleFacts.
Context {A : Type}.
Implicit Types x : list A.

Lemma swap_perm i j x : swap i j x ≡ₚ x.
Proof.
  unfold swap. destruct (x !! i) eqn:Hi, (x !! j) eqn:Hj; try done.
  by apply Permutation_insert_swap.
Qed.

Lemma shuffle_go_perm i x e : (shuffle_go i x e).1 ≡ₚ x.
Proof.
  revert x e. induction i as [|i IH]; intros x e; simpl; [done|].
  rewrite IH. apply swap_perm.
Qed.

Lemma shuffle_perm x e : (shuffle x e).1 ≡ₚ x.
Proof. apply shuffle_go_perm. Qed.

End ShuffleFacts.

(** ** Replay on regular text *)

Section ScramblerFacts.
Context `{PyLib}.
Import Scrambler.

Lemma get_set b b' l s : get b (set b' l s) = if decide (b = b') then l else get b s.
Proof. by destruct b, b'. Qed.

Lemma pop_bucket_pld s c :
  _preserve_letter_distribution s = true → pop_bucket s c = pop_bucket (init true) c.
Proof. unfold pop_bucket. by intros ->. Qed.

Lemma feed_bucket_pld s c :
  _preserve_letter_distribution s = true → feed_bucket s c = feed_bucket (init true) c.
Proof. unfold feed_bucket. by intros ->. Qed.

(** What [feed] leaves in the scrambler. *)
Lemma feed_spec text : ∀ s,
  _preserve_letter_distribution s = true →
  feed s text =
    mk (_buf s ++ text) (_alpha s ++ routed Alpha text)
       (_cons s ++ routed Cons text) (_vowels s ++ routed Vowels text)
       (_digits s ++ routed_digits text) true.
Proof.
  induction text as [|c text IH]; intros [buf a co v d pld] Hpld;
    simpl in Hpld; subst pld.
  { simpl. by rewrite !app_nil_r. }
  unfold feed. simpl. fold (feed (feed_char (mk buf a co v d true) c) text).
  unfold feed_char, routed, routed_digits. simpl.
  destruct (isalpha c) eqn:Ha; simpl.
  - rewrite feed_bucket_pld by done.
    destruct (feed_bucket (init true) (lower c)) eqn:Hb; simpl;
      rewrite IH by done; simpl; rewrite <-!app_assoc; done.
  - destruct (isdigit c) eqn:Hd; simpl; rewrite IH by done; simpl;
      rewrite <-!app_assoc; done.
Qed.

Lemma regular_letter c :
  regular c = true → isalpha c = true →
  good_letter (lower c) ∧
  feed_bucket (init true) (lower c) = pop_bucket (init true) c.
Proof.
  unfold regular. intros Hr Ha. rewrite Ha in Hr.
  destruct (lower c) as [|l [|??]]; try done.
  destruct (upper l) as [|u [|??]] eqn:Hu; try done.
  repeat (apply andb_prop in Hr as [Hr ?]).
  split; [|by eapply bool_decide_eq_true_1].
  exists l, u. unfold shape_of. repeat split; [done|..].
  - destruct (isalpha l), (isupper l); done.
  - destruct (isalpha u), (isupper u); done.
Qed.

Lemma routed_good b text :
  forallb regular text = true → Forall good_letter (routed b text).
Proof.
  induction text as [|c text IH]; simpl; [constructor|].
  intros [Hc Ht]%andb_prop. unfold routed. simpl.
  destruct (isalpha c) eqn:Ha; simpl; [|by apply IH].
  case_bool_decide; simpl; [|by apply IH].
  constructor; [|by apply IH]. by apply regular_letter.
Qed.

Lemma routed_length b text :
  forallb regular text = true → length (routed b text) = need b text.
Proof.
  induction text as [|c text IH]; simpl; [done|].
  intros [Hc Ht]%andb_prop. unfold routed. simpl.
  destruct (isalpha c) eqn:Ha; simpl; [|by apply IH].
  destruct (regular_letter c Hc Ha) as [_ ->].
  case_bool_decide; simpl; f_equal; by apply IH.
Qed.

Lemma routed_digits_good text : Forall good_digit (routed_digits text).
Proof.
  induction text as [|c text IH]; simpl; [constructor|].
  unfold routed_digits. simpl.
  destruct (isalpha c) eqn:Ha, (isdigit c) eqn:Hd; simpl; try apply IH.
  constructor; [|apply IH]. exists c. unfold shape_of. by rewrite Ha, Hd.
Qed.

Lemma routed_digits_length text : length (routed_digits text) = need_digits text.
Proof.
  induction text as [|c text IH]; simpl; [done|].
  unfold routed_digits. simpl.
  destruct (isalpha c), (isdigit c); simpl; f_equal; apply IH.
Qed.

Lemma flush_go_shape buf : ∀ s text,
  stocked buf s →
  ∃ out s', flush_go buf s text = Ok (text ++ out, s')
            ∧ shape_of <$> concat out = shape_of <$> buf.
Proof.
  induction buf as [|c buf IH]; intros s text Hs.
  { exists [], s. simpl. by rewrite app_nil_r. }
  destruct Hs as [Hpld Hl Hd Hg Hgd]. simpl.
  destruct (isalpha c) eqn:Ha.
  - pose proof (Hl (pop_bucket (init true) c)) as Hlen.
    pose proof (Hg (pop_bucket (init true) c)) as Hgood.
    simpl in Hlen. rewrite Ha, bool_decide_eq_true_2 in Hlen by done.
    unfold _pop_letter, _pop_letter_try. rewrite (pop_bucket_pld s c Hpld).
    destruct (get (pop_bucket (init true) c) s) as [|x l] eqn:Hget;
      [simpl in Hlen; lia|]. simpl.
    apply Forall_cons in Hgood as [(l0 & u & -> & Hu & Hsl & Hsu) Hgood].
    set (s' := set (pop_bucket (init true) c) l s).
    assert (stocked buf s') as Hs'.
    { subst s'. split.
      - by destruct (pop_bucket (init true) c).
      - intros b. rewrite get_set. case_decide as Hb.
        + subst b. simpl in Hlen. lia.
        + specialize (Hl b). simpl in Hl.
          rewrite bool_decide_eq_false_2, andb_false_r in Hl by done. done.
      - simpl in Hd. rewrite Ha in Hd. simpl in Hd.
        by destruct (pop_bucket (init true) c).
      - intros b. rewrite get_set. case_decide; [done|apply Hg].
      - by destruct (pop_bucket (init true) c). }
    destruct (isupper c) eqn:Hup.
    + edestruct (IH s') as (out & s'' & Heq & Hout); [exact Hs'|]. rewrite Heq.
      exists (str_upper [l0] :: out), s''. split.
      { by rewrite <-app_assoc. }
      simpl. rewrite fmap_app, Hout. f_equal.
      unfold str_upper. simpl. rewrite Hu. simpl. rewrite Hsu.
      unfold shape_of. by rewrite Ha, Hup.
    + edestruct (IH s') as (out & s'' & Heq & Hout); [exact Hs'|]. rewrite Heq.
      exists ([l0] :: out), s''. split.
      { by rewrite <-app_assoc. }
      simpl. f_equal; [|exact Hout]. rewrite Hsl. unfold shape_of. by rewrite Ha, Hup.
  - destruct (isdigit c) eqn:Hdg.
    + simpl in Hd. rewrite Ha, Hdg in Hd. simpl in Hd.
      destruct (_digits s) as [|x l] eqn:Hdig; [simpl in Hd; lia|]. simpl.
      apply Forall_cons in Hgd as [(d & -> & Hsd) Hgd].
      assert (stocked buf (set_digits l s)) as Hs'.
      { split; simpl; try done.
        - intros b. specialize (Hl b). simpl in Hl. rewrite Ha in Hl.
          by destruct b.
        - simpl in Hd. lia. }
      edestruct IH as (out & s'' & Heq & Hout); [exact Hs'|]. rewrite Heq.
      exists ([d] :: out), s''. split.
      { by rewrite <-app_assoc. }
      simpl. f_equal; [|exact Hout]. rewrite Hsd. unfold shape_of. by rewrite Ha, Hdg.
    + assert (stocked buf s) as Hs'.
      { split; try done.
        - intros b. specialize (Hl b). simpl in Hl. by rewrite Ha in Hl.
        - simpl in Hd. by rewrite Ha, Hdg in Hd. }
      edestruct IH as (out & s'' & Heq & Hout); [exact Hs'|]. rewrite Heq.
      exists ([c] :: out), s''. split.
      { by rewrite <-app_assoc. }
      simpl. f_equal. exact Hout.
Qed.

(** Scrambling a regular text keeps the shape of every character: the
    output has the length of the text, the same characters wherever the
    text has neither a letter nor a digit, and an upper-case letter, another
    letter or a digit wherever the text has one. *)
Lemma scramble_shape text e :
  forallb regular text = true →
  ∃ out s' e', scramble (feed (init true) text) e = Ok (out, s', e')
               ∧ shape_of <$> out = shape_of <$> text.
Proof.
  intros Hreg. unfold scramble.
  rewrite (feed_spec text (init true) eq_refl). simpl.
  destruct (shuffle (routed Alpha text) e) as [a e1] eqn:Ea. simpl.
  destruct (shuffle (routed Cons text) e1) as [c e2] eqn:Ec. simpl.
  destruct (shuffle (routed Vowels text) e2) as [v e3] eqn:Ev. simpl.
  destruct (shuffle (routed_digits text) e3) as [d e4] eqn:Ed. simpl.
  pose proof (shuffle_perm (routed Alpha text) e) as Pa. rewrite Ea in Pa.
  pose proof (shuffle_perm (routed Cons text) e1) as Pc. rewrite Ec in Pc.
  pose proof (shuffle_perm (routed Vowels text) e2) as Pv. rewrite Ev in Pv.
  pose proof (shuffle_perm (routed_digits text) e3) as Pd. rewrite Ed in Pd.
  simpl in *. unfold flush. simpl.
  destruct (flush_go_shape text
              (set_digits d (mk text a c v (routed_digits text) true)) [])
    as (out & s' & Heq & Hout); [|rewrite Heq; simpl; eauto].
  split; simpl.
  - done.
  - intros [| |]; simpl;
      [rewrite Pa|rewrite Pc|rewrite Pv]; by rewrite routed_length.
  - by rewrite Pd, routed_digits_length.
  - intros [| |]; simpl;
      [rewrite Pa|rewrite Pc|rewrite Pv]; by apply routed_good.
  - rewrite Pd. apply routed_digits_good.
Qed.

Lemma scramble_text_shape text e :
  forallb regular text = true →
  ∃ out, scramble_text text e = Ok out ∧ shape_of <$> out = shape_of <$> text.
Proof.
  intros Hreg. unfold scramble_text.
  destruct (scramble_shape text e Hreg) as (out & s' & e' & -> & Hout).
  simpl. eauto.
Qed.

(** In particular a regular text keeps its length. *)
Lemma scramble_text_length text e :
  forallb regular text = true →
  ∃ out, scramble_text text e = Ok out ∧ length out = length text.
Proof.
  intros Hreg.
  destruct (scramble_text_shape text e Hreg) as (out & Hout & Hshape).
  exists out. split; [done|].
  by rewrite <-(length_fmap shape_of out), Hshape, length_fmap.
Qed.

End ScramblerFacts.

(** ** Replay in general

    What replay emits for a character, given what the lists hold: [GL]
    holds of the strings on the letter lists, [GD] of those on the digit
    list, and [Q] relates a character of the buffer to the string emitted
    for it. *)

Section Replay.
Context `{PyLib}.
Import Scrambler.

Variables (GL GD : str → Prop) (Q : char → str → Prop).

Hypothesis Q_letter : ∀ c x,
  isalpha c = true → GL x → Q c (if isupper c then str_upper x else x).
Hypothesis Q_digit : ∀ c d,
  isalpha c = false → isdigit c = true → GD d → Q c d.
Hypothesis Q_other : ∀ c,
  isalpha c = false → isdigit c = false → Q c [c].

Lemma flush_go_rel buf : ∀ s text,
  _preserve_letter_distribution s = true →
  (∀ b, need b buf ≤ length (get b s)) →
  need_digits buf ≤ length (_digits s) →
  (∀ b, Forall GL (get b s)) →
  Forall GD (_digits s) →
  ∃ out s', flush_go buf s text = Ok (text ++ out, s') ∧ Forall2 Q buf out.
Proof.
  induction buf as [|c buf IH]; intros s text Hpld Hl Hd Hg Hgd.
  { exists [], s. simpl. rewrite app_nil_r. split; [done|constructor]. }
  cbn [flush_go]. destruct (isalpha c) eqn:Ha.
  - set (b0 := pop_bucket (init true) c).
    pose proof (Hl b0) as Hlen. pose proof (Hg b0) as Hgood.
    simpl in Hlen. rewrite Ha in Hlen. fold b0 in Hlen.
    rewrite bool_decide_eq_true_2 in Hlen by done.
    unfold _pop_letter, _pop_letter_try. rewrite (pop_bucket_pld s c Hpld).
    fold b0. destruct (get b0 s) as [|x l] eqn:Hget; [simpl in Hlen; lia|].
    cbn [pop0 mbind result_bind].
    apply Forall_cons in Hgood as [Hx Hgood].
    assert (∀ b, get b (set b0 l s)
                 = if decide (b = b0) then l else get b s) as Hgs
      by (intros b; apply get_set).
    assert (_digits (set b0 l s) = _digits s
            ∧ _preserve_letter_distribution (set b0 l s)
              = _preserve_letter_distribution s) as [Hsd Hsp]
      by (by destruct b0).
    destruct (IH (set b0 l s) (text ++ [if isupper c then str_upper x else x]))
      as (out & s' & Heq & Hout).
    { by rewrite Hsp. }
    { intros b. rewrite Hgs. specialize (Hl b). simpl in Hl.
      rewrite Ha in Hl. fold b0 in Hl.
      destruct (decide (b = b0)) as [->|Hb].
      - simpl in Hlen. lia.
      - rewrite bool_decide_eq_false_2 in Hl by done. done. }
    { rewrite Hsd. simpl in Hd. by rewrite Ha in Hd. }
    { intros b. rewrite Hgs. destruct (decide (b = b0)) as [->|Hb];
        [done|apply Hg]. }
    { by rewrite Hsd. }
    exists ((if isupper c then str_upper x else x) :: out), s'. split.
    { destruct (isupper c); by rewrite Heq, <-app_assoc. }
    constructor; [by apply Q_letter|done].
  - destruct (isdigit c) eqn:Hdg.
    + simpl in Hd. rewrite Ha, Hdg in Hd. simpl in Hd.
      destruct (_digits s) as [|d l] eqn:Hdigits; [simpl in Hd; lia|].
      cbn [pop0 mbind result_bind].
      apply Forall_cons in Hgd as [Hgd0 Hgd].
      destruct (IH (set_digits l s) (text ++ [d])) as (out & s' & Heq & Hout).
      { by simpl. }
      { intros b. specialize (Hl b). simpl in Hl. rewrite Ha in Hl.
        by destruct b. }
      { simpl in *. lia. }
      { intros b. specialize (Hg b). by destruct b. }
      { by simpl. }
      exists (d :: out), s'. split.
      { etrans; [exact Heq|]. by rewrite <-app_assoc. }
      constructor; [by apply Q_digit|done].
    + destruct (IH s (text ++ [[c]])) as (out & s' & Heq & Hout).
      { done. }
      { intros b. specialize (Hl b). simpl in Hl. by rewrite Ha in Hl. }
      { simpl in Hd. by rewrite Ha, Hdg in Hd. }
      { done. }
      { done. }
      exists ([c] :: out), s'. split.
      { etrans; [exact Heq|]. by rewrite <-app_assoc. }
      constructor; [by apply Q_other|done].
Qed.

Lemma routed_rel b text :
  Forall (fun c => isalpha c = true → GL (lower c)) text →
  Forall GL (routed b text).
Proof.
  induction 1 as [|c text Hc _ IH]; [constructor|].
  unfold routed. cbn [omap list_omap].
  destruct (isalpha c) eqn:Ha; cbn [andb]; [|exact IH].
  case_bool_decide; [|exact IH]. constructor; [by apply Hc|exact IH].
Qed.

Lemma routed_need b text :
  Forall (fun c => isalpha c = true →
                   feed_bucket (init true) (lower c) = pop_bucket (init true) c)
         text →
  length (routed b text) = need b text.
Proof.
  induction 1 as [|c text Hc _ IH]; [done|].
  unfold routed. cbn [omap list_omap need].
  destruct (isalpha c) eqn:Ha; cbn [andb]; [|exact IH].
  rewrite (Hc eq_refl). case_bool_decide; cbn [length]; by rewrite <-IH.
Qed.

Lemma routed_digits_rel text :
  Forall (fun c => isalpha c = false → isdigit c = true → GD [c]) text →
  Forall GD (routed_digits text).
Proof.
  induction 1 as [|c text Hc _ IH]; [constructor|].
  unfold routed_digits. cbn [omap list_omap].
  destruct (isalpha c) eqn:Ha, (isdigit c) eqn:Hd; cbn [negb andb];
    try exact IH.
  constructor; [by apply Hc|exact IH].
Qed.

(** [scramble] on a freshly fed scrambler, in the terms of [GL], [GD] and
    [Q]. *)
Lemma scramble_rel text e :
  Forall (fun c => isalpha c = true →
                   feed_bucket (init true) (lower c) = pop_bucket (init true) c
                   ∧ GL (lower c)) text →
  Forall (fun c => isalpha c = false → isdigit c = true → GD [c]) text →
  ∃ out s' e',
    scramble (feed (init true) text) e = Ok (concat out, s', e')
    ∧ Forall2 Q text out.
Proof.
  intros Hletters Hdigits.
  assert (Forall (fun c => isalpha c = true → GL (lower c)) text) as Hgl
    by (eapply Forall_impl; [exact Hletters|]; intros c Hc Ha; by apply Hc).
  assert (Forall (fun c => isalpha c = true →
                   feed_bucket (init true) (lower c) = pop_bucket (init true) c)
                 text) as Hfp
    by (eapply Forall_impl; [exact Hletters|]; intros c Hc Ha; by apply Hc).
  unfold scramble.
  rewrite (feed_spec text (init true) eq_refl). simpl.
  destruct (shuffle (routed Alpha text) e) as [a e1] eqn:Ea. simpl.
  destruct (shuffle (routed Cons text) e1) as [c e2] eqn:Ec. simpl.
  destruct (shuffle (routed Vowels text) e2) as [v e3] eqn:Ev. simpl.
  destruct (shuffle (routed_digits text) e3) as [d e4] eqn:Ed. simpl.
  pose proof (shuffle_perm (routed Alpha text) e) as Pa. rewrite Ea in Pa.
  pose proof (shuffle_perm (routed Cons text) e1) as Pc. rewrite Ec in Pc.
  pose proof (shuffle_perm (routed Vowels text) e2) as Pv. rewrite Ev in Pv.
  pose proof (shuffle_perm (routed_digits text) e3) as Pd. rewrite Ed in Pd.
  simpl in *. unfold flush. simpl.
  destruct (flush_go_rel text
              (set_digits d (mk text a c v (routed_digits text) true)) [])
    as (out & s' & Heq & Hout); simpl.
  - done.
  - intros [| |]; simpl;
      [rewrite Pa|rewrite Pc|rewrite Pv]; by rewrite routed_need.
  - by rewrite Pd, routed_digits_length.
  - intros [| |]; simpl;
      [rewrite Pa|rewrite Pc|rewrite Pv]; by apply routed_rel.
  - rewrite Pd. by apply routed_digits_rel.
  - rewrite Heq. simpl. by eexists _, _, _.
Qed.

End Replay.

Section ReplayKinds.
Context `{PyLib}.
Import Scrambler.


(** Scrambling a regular text over a set of characters closed under the
    case mappings stays within the set. *)
Lemma scramble_alphabet (P : char → bool) text e :
  forallb regular text = true → forallb P text = true → case_closed P →
  ∃ out s' e', scramble (feed (init true) text) e = Ok (out, s', e')
               ∧ forallb P out = true.
Proof.
  intros Hreg HP Hclosed.
  rewrite forallb_forall in Hreg. rewrite forallb_forall in HP.
  destruct (scramble_rel
              (fun x => forallb P x = true ∧ forallb P (str_upper x) = true)
              (fun x => forallb P x = true)
              (fun c x => P c = true → forallb P x = true)) with (text := text) (e := e)
    as (out & s' & e' & Heq & Hout).
  - intros c x Ha [Hx Hux] _. by destruct (isupper c).
  - intros c x Ha Hd Hx _. exact Hx.
  - intros c Ha Hd Hc. cbn [forallb]. by rewrite Hc.
  - apply Forall_forall. intros c Hc Ha. apply list_elem_of_In in Hc.
    destruct (regular_letter c (Hreg c Hc) Ha)
      as [(l & u & Hl & Hu & _ & _) Hb].
    split; [done|]. rewrite Hl.
    destruct (Hclosed c l u (HP c Hc) Ha Hl Hu) as [Hpl Hpu].
    unfold str_upper. cbn [mbind list_bind forallb]. rewrite Hu.
    cbn [app forallb]. by rewrite Hpl, Hpu.
  - apply Forall_forall. intros c Hc Ha Hd. apply list_elem_of_In in Hc.
    cbn [forallb]. by rewrite (HP c Hc).
  - exists (concat out), s', e'. split; [done|].
    assert (Forall (fun c => P c = true) text) as HPt.
    { apply Forall_forall. intros c Hc. apply HP. by apply list_elem_of_In. }
    clear Heq HP Hreg.
    induction Hout as [|c x text out Hx _ IH]; [done|].
    apply Forall_cons in HPt as [Hc HPt].
    cbn [concat]. rewrite forallb_app, (Hx Hc). by apply IH.
Qed.

End ReplayKinds.

(** On the concrete tables every ASCII character is regular, and the
    markup characters are neither letters nor digits. *)
Lemma ascii_regular (c : char) : (c < 128)%N → regular c = true.
Proof.
  intros Hc.
  assert (forallb (fun n => regular (N.of_nat n)) (seq 0 128) = true) as Hall
    by (vm_compute; reflexivity).
  rewrite forallb_forall in Hall.
  rewrite <-(N2Nat.id c). apply Hall, in_seq. lia.
Qed.

Lemma ascii_markup_literal : markup_literal = true.
Proof. reflexivity. Qed.

(** ** Replay from an empty class list *)

Section EmptyPop.
Context `{PyLib}.
Import Scrambler.

(** C3, as the code has it: when the list a letter is to be popped from is
    empty, [_pop_letter] swallows the [IndexError] and answers the empty
    string without touching the scrambler, so replay goes on and the
    position yields nothing; an empty digit list, popped outside any
    [try], does raise [IndexError]. *)
Theorem pop_from_empty_list (s : t) (c : char) :
  (get (pop_bucket s c) s = [] → _pop_letter s c = Ok ([], s)) ∧
  (isalpha c = false → isdigit c = true → _digits s = [] →
   ∀ buf text, flush_go (c :: buf) s text = Raise IndexError).
Proof.
  split.
  - intros Hempty. unfold _pop_letter, _pop_letter_try. by rewrite Hempty.
  - intros Ha Hd Hempty buf text. simpl. by rewrite Ha, Hd, Hempty.
Qed.

End EmptyPop.

Lemma pop_from_empty_list_witness :
  Scrambler._pop_letter (Scrambler.init true) 97%N = Ok ([], Scrambler.init true)
  ∧ Scrambler.flush_go [49%N] (Scrambler.init true) [] = Raise IndexError.
Proof.
  split.
  - apply (proj1 (pop_from_empty_list (Scrambler.init true) 97%N)). reflexivity.
  - apply (proj2 (pop_from_empty_list (Scrambler.init true) 49%N));
      reflexivity.
Defined.

(** C3 fails as stated: on the text U+2102 replay pops from the empty
    consonant list, and the pop is no fault: it answers the empty string
    and [scramble] returns normally. *)
Lemma empty_pop_is_silent :
  ¬ (∀ (s : Scrambler.t) (c : char),
       Scrambler.get (Scrambler.pop_bucket s c) s = [] →
       ∃ x, Scrambler._pop_letter s c = Raise x)
  ∧ scramble_text [CPython.U_2102] zeros = Ok [].
Proof.
  split; [|reflexivity].
  intros Hfatal.
  destruct (Hfatal (Scrambler.feed (Scrambler.init true) [CPython.U_2102])
                   CPython.U_2102) as [x Hx]; [by vm_compute|].
  vm_compute in Hx. discriminate Hx.
Qed.

(** ** The parser flags *)

Section Flags.
Context `{PyLib}.
Import HTMLScrambler.

Lemma handle_suppress s ev e s' e' :
  handle s ev e = Ok (s', e') → _suppress_scripts s' = _suppress_scripts s.
Proof.
  destruct ev; simpl;
    unfold handle_starttag, handle_startendtag, handle_endtag, handle_data,
      handle_entityref, handle_charref, handle_comment, handle_decl;
    intros Hh;
    repeat match type of Hh with
      | context [if ?b then _ else _] => destruct b eqn:?; simpl in Hh
      | context [_build_starttag ?s ?t ?a ?i ?e] =>
          destruct (_build_starttag s t a i e) as [[??]|]; simpl in Hh
      end;
    by simplify_eq.
Qed.

Lemma scramble_suppress s e doc s' e' :
  scramble s e = Ok (doc, s', e') → _suppress_scripts s' = _suppress_scripts s.
Proof.
  unfold scramble. intros Hs.
  destruct (Scrambler.scramble _ e) as [[[??]?]|]; simpl in Hs; [|done].
  destruct (scramble_go _ _ _ _) as [[??]|]; simpl in Hs; by simplify_eq.
Qed.

Lemma step_suppress s s' : step s s' → _suppress_scripts s' = _suppress_scripts s.
Proof.
  destruct 1; eauto using handle_suppress, scramble_suppress.
Qed.

(** C10: an instance constructed with [is_honeypot=True] suppresses scripts
    in every state it reaches through handler calls and calls of
    [scramble], whatever was passed for [suppress_scripts]. *)
Theorem honeypot_suppresses_scripts base src tgt sup (s : t) :
  rtc step (init base true src tgt sup) s → _suppress_scripts s = true.
Proof.
  intros Hreach.
  assert (_suppress_scripts s = _suppress_scripts (init base true src tgt sup))
    as ->.
  { induction Hreach as [|s1 s2 s3 H12 _ IH]; [done|].
    rewrite IH. by apply step_suppress. }
  simpl. apply orb_true_r.
Qed.

End Flags.

Lemma honeypot_suppresses_scripts_witness :
  HTMLScrambler._suppress_scripts
    (HTMLScrambler.handle_data
       (HTMLScrambler.handle_endtag
          (HTMLScrambler.init (py "https://example.com/") true None None false)
          (py "script"))
       (py "x")) = true.
Proof.
  apply (honeypot_suppresses_scripts (py "https://example.com/") None None false).
  eapply rtc_l; [eapply (step_handle _ (HTMLScrambler.EndTag (py "script")) zeros);
                 reflexivity|].
  eapply rtc_l; [eapply (step_handle _ (HTMLScrambler.Data (py "x")) zeros);
                 reflexivity|].
  apply rtc_refl.
Defined.

(** ** Replay on letters outside the regular ones *)

(** C1, at the failing input: U+2102 is a letter without lower-case
    mapping whose NFKD form is [C].  [feed] tests the normalised letter
    itself against the consonants and routes it to [_alpha]; [_pop_letter]
    tests its lower case and pops [_cons], which is empty: the one-character
    text comes back as the empty string.  U+0130, whose lower case has two
    characters, comes back two characters long. *)
Theorem scramble_changes_length (e : entropy) :
  scramble_text [CPython.U_2102] e = Ok []
  ∧ scramble_text [CPython.U_0130] e = Ok [73%N; CPython.U_0307].
Proof. split; reflexivity. Qed.

(** C7, at the failing input: of the text [b] U+2102, [feed] files [b]
    under the consonants and U+2102 under the other letters; replay pops
    the consonants for both positions, so the output is [b] alone and the
    other letter is gone from it. *)
Theorem scramble_loses_letter (e : entropy) :
  let s := Scrambler.feed (Scrambler.init true) [98%N; CPython.U_2102] in
  Scrambler._cons s = [[98%N]]
  ∧ Scrambler._alpha s = [[CPython.U_2102]]
  ∧ scramble_text [98%N; CPython.U_2102] e = Ok [98%N].
Proof. repeat split; reflexivity. Qed.

(** ** Script elements that are not suppressed *)

(** C5, at the failing input: with [suppress_scripts=False] the start tag
    [script] takes the first branch of [handle_starttag], never reaches the
    [elif] that turns scrambling off, and the body of the script is
    scrambled like text; a [style] element is passed through. *)
Theorem unsuppressed_script_is_scrambled :
  let base := py "https://example.com/" in
  let s0 := HTMLScrambler.init base false None None false in
  HTMLScrambler.handle_starttag s0 (py "script") [] zeros
    = Ok (HTMLScrambler.emit (py "<script>")
            (HTMLScrambler.set_is_script true s0), zeros)
  ∧ HTMLScrambler._is_scrambling
      (HTMLScrambler.emit (py "<script>")
         (HTMLScrambler.set_is_script true s0)) = true
  ∧ HTMLScrambler.pipeline base false None None false
      [HTMLScrambler.StartTag (py "script") [];
       HTMLScrambler.Data (py "var x;");
       HTMLScrambler.EndTag (py "script")] ones
    = Ok (py "<script>vax r;</script>")
  ∧ HTMLScrambler.pipeline base false None None false
      [HTMLScrambler.StartTag (py "style") [];
       HTMLScrambler.Data (py "var x;");
       HTMLScrambler.EndTag (py "style")] ones
    = Ok (py "<style>var x;</style>").
Proof. repeat split; reflexivity. Qed.

(** ** Text that contains the marker *)

(** C2, at the failing input: the page [a<>b<br>c] reaches the handlers as
    the text runs [a], [<], [>b], the tag [br] and the text [c].  The
    handlers push one marker and one queue entry, but the joined buffer
    holds the marker twice, so [split] yields three pieces for a queue of
    one; the entry is spliced where the text had [<>], which is lost. *)
Theorem text_marker_misplaces_markup :
  let page := [HTMLScrambler.Data (py "a"); HTMLScrambler.Data (py "<");
               HTMLScrambler.Data (py ">b");
               HTMLScrambler.StartTag (py "br") [];
               HTMLScrambler.Data (py "c")] in
  let base := py "https://example.com/" in
  (∃ s, HTMLScrambler.feed (HTMLScrambler.init base false None None true)
          page ones = Ok (s, ones)
        ∧ HTMLScrambler._buf s = [py "a"; py "<"; py ">b"; py "<>"; py "c"]
        ∧ HTMLScrambler._html s = [py "<br>"]
        ∧ str_split HTMLScrambler.marker (concat (HTMLScrambler._buf s))
          = [py "a"; py "b"; py "c"])
  ∧ HTMLScrambler.pipeline base false None None true page ones
    = Ok (py "a<br>bc").
Proof. split; [eexists; repeat split|]; reflexivity. Qed.

(** ** Escaping *)

Section EscapeFacts.
Context `{PyLib}.

Lemma markup_literal_spec c :
  markup_literal = true → special c = true →
  isalpha c = false ∧ isdigit c = false.
Proof.
  unfold markup_literal, special. intros Hm Hc.
  apply bool_decide_eq_true_1, list_elem_of_In in Hc.
  rewrite forallb_forall in Hm. specialize (Hm c Hc).
  apply andb_prop in Hm as [Ha Hd].
  by apply negb_true_iff in Ha, Hd.
Qed.

Lemma special_shape c :
  markup_literal = true → special c = true → shape_of c = Literal c.
Proof.
  intros Hm Hc. destruct (markup_literal_spec c Hm Hc) as [Ha Hd].
  unfold shape_of. by rewrite Ha, Hd.
Qed.

Lemma shape_special a b :
  markup_literal = true → shape_of a = shape_of b → special a = special b.
Proof.
  intros Hm Hab.
  destruct (special a) eqn:Ha, (special b) eqn:Hb; try done.
  - rewrite (special_shape a Hm Ha) in Hab. unfold shape_of in Hab.
    destruct (isalpha b); [by destruct (isupper b)|].
    destruct (isdigit b); [done|]. congruence.
  - rewrite (special_shape b Hm Hb) in Hab. unfold shape_of in Hab.
    destruct (isalpha a); [by destruct (isupper a)|].
    destruct (isdigit a); [done|]. congruence.
Qed.

Lemma escape_char_plain c : special c = false → escape_char c = [c].
Proof.
  unfold special, markup_chars. intros Hc.
  apply bool_decide_eq_false_1 in Hc.
  unfold escape_char. repeat case_bool_decide; try done; subst; exfalso;
    apply Hc; vm_compute; set_solver.
Qed.

Lemma escape_plain s : forallb (fun c => negb (special c)) s = true → html_escape s = s.
Proof.
  induction s as [|c s IH]; [done|].
  intros Hcs. simpl in Hcs. apply andb_prop in Hcs as [Hc Hs].
  apply negb_true_iff in Hc.
  unfold html_escape. rewrite bind_cons, escape_char_plain by done.
  simpl. f_equal. by apply IH.
Qed.

(** Escaping acts on shapes: strings of the same shape have escaped forms
    of the same shape. *)
Lemma escape_char_shape a b :
  markup_literal = true → shape_of a = shape_of b →
  shape_of <$> escape_char a = shape_of <$> escape_char b.
Proof.
  intros Hm Hab. pose proof (shape_special a b Hm Hab) as Hsp.
  destruct (special a) eqn:Ha.
  - symmetry in Hsp.
    rewrite (special_shape a Hm Ha), (special_shape b Hm Hsp) in Hab.
    by simplify_eq.
  - symmetry in Hsp. rewrite !escape_char_plain by done. simpl. by rewrite Hab.
Qed.

Lemma escape_shape x y :
  markup_literal = true → shape_of <$> x = shape_of <$> y →
  shape_of <$> html_escape x = shape_of <$> html_escape y.
Proof.
  intros Hm. revert y. induction x as [|a x IH]; intros [|b y] Hxy;
    try done.
  rewrite !fmap_cons in Hxy. simplify_eq.
  unfold html_escape. rewrite !bind_cons, !fmap_app.
  f_equal; [by apply escape_char_shape|by apply IH].
Qed.

Lemma shape_plain x y :
  markup_literal = true → shape_of <$> x = shape_of <$> y →
  forallb (fun c => negb (special c)) y = true →
  forallb (fun c => negb (special c)) x = true.
Proof.
  intros Hm. revert y. induction x as [|a x IH]; intros [|b y] Hxy;
    try done.
  rewrite !fmap_cons in Hxy. simplify_eq. simpl.
  intros [Hb Hy]%andb_prop. rewrite (shape_special a b) by done.
  rewrite Hb. simpl. by eapply IH.
Qed.





End EscapeFacts.

(** ** Attribute values *)

Section AttributeFacts.
Context `{PyLib}.
Import HTMLScrambler.


(** C4, as the code has it: [quote] keeps slashes, so with the base
    [https://example.com/] and honeypot mode off the tag [<a href="/page">]
    is rebuilt with [href="?url=https%3A//example.com/page"]; only the
    colon is percent-encoded. *)
Theorem link_rewriting (src tgt : option str) (sup : bool) (e : entropy) :
  urljoin (py "https://example.com/") (py "/page")
    = Ok (py "https://example.com/page") →
  _build_starttag (init (py "https://example.com/") false src tgt sup)
    (py "a") [(py "href", Some (py "/page"))] false e
  = Ok (py "<a href=" ++ dquote ++ py "?url=https%3A//example.com/page"
        ++ dquote ++ py ">", e).
Proof.
  intros Hjoin. unfold _build_starttag, build_attrs, _process_attr_value.
  simpl. rewrite Hjoin. reflexivity.
Qed.

End AttributeFacts.



Lemma link_rewriting_witness :
  HTMLScrambler._build_starttag
    (HTMLScrambler.init (py "https://example.com/") false None None true)
    (py "a") [(py "href", Some (py "/page"))] false zeros
  = Ok (py "<a href=" ++ HTMLScrambler.dquote
        ++ py "?url=https%3A//example.com/page" ++ HTMLScrambler.dquote
        ++ py ">", zeros).
Proof. apply link_rewriting. reflexivity. Defined.

(** C4 fails as stated: the rebuilt tag does not carry the attribute text
    with [%2F] for the slashes. *)
Lemma link_keeps_slashes :
  ∃ tag,
    HTMLScrambler._build_starttag
      (HTMLScrambler.init (py "https://example.com/") false None None true)
      (py "a") [(py "href", Some (py "/page"))] false zeros = Ok (tag, zeros)
    ∧ str_in (py "href=" ++ HTMLScrambler.dquote
              ++ py "?url=https%3A%2F%2Fexample.com%2Fpage"
              ++ HTMLScrambler.dquote) tag = false.
Proof. eexists. split; reflexivity. Qed.

(** ** Encoding conversion *)

Section ConversionFacts.
Context `{PyLib}.
Import HTMLScrambler.

Lemma pop_letter_digits s c :
  ∃ x s', Scrambler._pop_letter s c = Ok (x, s')
          ∧ Scrambler._digits s' = Scrambler._digits s.
Proof.
  unfold Scrambler._pop_letter, Scrambler._pop_letter_try.
  destruct (Scrambler.get (Scrambler.pop_bucket s c) s) as [|x l]; simpl;
    [by eauto|].
  eexists _, _. split; [done|]. by destruct (Scrambler.pop_bucket s c).
Qed.

(** Replay raises only on an empty digit list, and [feed] has filed one
    digit for every digit position. *)
Lemma flush_go_total buf : ∀ s text,
  need_digits buf ≤ length (Scrambler._digits s) →
  ∃ out s', Scrambler.flush_go buf s text = Ok (out, s').
Proof.
  induction buf as [|c buf IH]; intros s text Hd; simpl; [by eauto|].
  simpl in Hd. destruct (isalpha c) eqn:Ha; simpl in Hd.
  - destruct (pop_letter_digits s c) as (x & s' & -> & Hs'). simpl.
    destruct (isupper c); apply IH; by rewrite Hs'.
  - destruct (isdigit c) eqn:Hdg; simpl in Hd; [|by apply IH].
    destruct (Scrambler._digits s) as [|d l] eqn:Hdig; [simpl in Hd; lia|].
    simpl. apply IH. simpl in *. lia.
Qed.

Lemma scramble_total text e :
  ∃ out s' e',
    Scrambler.scramble (Scrambler.feed (Scrambler.init true) text) e
    = Ok (out, s', e').
Proof.
  unfold Scrambler.scramble.
  rewrite (feed_spec text (Scrambler.init true) eq_refl). simpl.
  destruct (shuffle (routed Scrambler.Alpha text) e) as [a e1]. simpl.
  destruct (shuffle (routed Scrambler.Cons text) e1) as [c e2]. simpl.
  destruct (shuffle (routed Scrambler.Vowels text) e2) as [v e3]. simpl.
  destruct (shuffle (routed_digits text) e3) as [d e4] eqn:Ed. simpl.
  pose proof (shuffle_perm (routed_digits text) e3) as Pd. rewrite Ed in Pd.
  unfold Scrambler.flush. simpl.
  edestruct (flush_go_total text) as (out & s' & ->); [|simpl; eauto].
  simpl in *. by rewrite Pd, routed_digits_length.
Qed.

Lemma digit_char_ascii d : (d < 10)%N → (digit_char d < 128)%N.
Proof.
  intros Hd. unfold digit_char. destruct (N.ltb_spec d 10); lia.
Qed.

Lemma decimal_go_ascii fuel : ∀ n acc,
  Forall (fun b => (b < 128)%N) acc →
  Forall (fun b => (b < 128)%N) (decimal_go fuel n acc).
Proof.
  induction fuel as [|fuel IH]; intros n acc Hacc; simpl; [done|].
  assert (digit_char (n mod 10) < 128)%N
    by (apply digit_char_ascii, N.mod_lt; lia).
  destruct (n <? 10)%N; [|apply IH]; by constructor.
Qed.

Lemma charref_ascii c : Forall (fun b => (b < 128)%N) (charref c).
Proof.
  unfold charref. rewrite !Forall_app. repeat split.
  - repeat constructor.
  - apply decimal_go_ascii. constructor.
  - repeat constructor.
Qed.

Lemma charref_nonempty c : charref c ≠ [].
Proof. done. Qed.

Lemma encode_strict_ascii C s :
  ascii_compatible C → Forall (fun b => (b < 128)%N) s →
  encode_strict C s = Ok s.
Proof.
  intros HC. induction 1 as [|c s Hc _ IH]; simpl; [done|].
  by rewrite (HC c Hc), IH.
Qed.

Lemma encode_total C s :
  ascii_compatible C → ∃ bs, encode_xmlcharrefreplace C s = Ok bs.
Proof.
  intros HC. induction s as [|c s [bs IH]]; [by exists []|].
  cbn [encode_xmlcharrefreplace]. rewrite IH.
  destruct (encode_char C c); [by eexists|].
  rewrite (encode_strict_ascii C (charref c) HC (charref_ascii c)).
  by eexists.
Qed.

Lemma encode_app C a : ∀ b x y,
  encode_xmlcharrefreplace C a = Ok x →
  encode_xmlcharrefreplace C b = Ok y →
  encode_xmlcharrefreplace C (a ++ b) = Ok (x ++ y).
Proof.
  induction a as [|c a IH]; intros b x y Ha Hb.
  { cbn in Ha. by simplify_eq. }
  rewrite <-app_comm_cons. cbn [encode_xmlcharrefreplace] in *.
  destruct (match encode_char C c with
            | Some b0 => Ok b0
            | None => encode_strict C (charref c)
            end) as [bc|]; [|done].
  destruct (encode_xmlcharrefreplace C a) as [ba|] eqn:Ea; [|done].
  cbn [mbind result_bind] in Ha. simplify_eq.
  rewrite (IH b ba y eq_refl Hb). cbn [mbind result_bind].
  by rewrite app_assoc.
Qed.

(** What the conversion does to one chunk. *)
Lemma convert_reference src tgt Cs Ct chunk :
  lookup_codec src = Some Cs → lookup_codec tgt = Some Ct →
  ascii_compatible Ct → ascii_transparent Cs →
  ∃ piece, convert src tgt chunk = Ok piece
           ∧ ∀ c, c ∈ chunk → encode_char Ct c = None →
                  ∃ l r, piece = l ++ charref c ++ r.
Proof.
  intros Hsrc Htgt HCt HCs. unfold convert, codec. rewrite Hsrc, Htgt.
  cbn [mbind result_bind].
  destruct (encode_total Ct chunk HCt) as [bs Hbs]. rewrite Hbs.
  cbn [mbind result_bind].
  eexists. split; [done|]. intros c Hc Hnone.
  apply list_elem_of_split in Hc as (l & r & ->).
  destruct (encode_total Ct l HCt) as [bl Hl].
  destruct (encode_total Ct r HCt) as [br Hr].
  assert (encode_xmlcharrefreplace Ct (c :: r) = Ok (charref c ++ br)) as Hcr.
  { cbn [encode_xmlcharrefreplace].
    by rewrite Hnone, (encode_strict_ascii Ct (charref c) HCt (charref_ascii c)), Hr. }
  assert (bs = bl ++ charref c ++ br) as ->.
  { rewrite (encode_app Ct l (c :: r) _ _ Hl Hcr) in Hbs. congruence. }
  eexists _, _.
  exact (HCs bl (charref c) br (charref_nonempty c) (charref_ascii c)).
Qed.

Lemma convert_all src tgt Cs Ct chunks :
  lookup_codec src = Some Cs → lookup_codec tgt = Some Ct →
  ascii_compatible Ct → ascii_transparent Cs →
  ∃ pieces,
    Forall2 (fun chunk piece =>
               convert src tgt chunk = Ok piece
               ∧ ∀ c, c ∈ chunk → encode_char Ct c = None →
                      ∃ l r, piece = l ++ charref c ++ r) chunks pieces.
Proof.
  intros Hsrc Htgt HCt HCs. induction chunks as [|chunk chunks [pieces IH]].
  { exists []. constructor. }
  destruct (convert_reference src tgt Cs Ct chunk) as (piece & Hp); try done.
  exists (piece :: pieces). by constructor.
Qed.

(** The loop of [scramble] weaves the converted chunks with the queue
    entries, which it appends as they are. *)
Lemma scramble_go_weave s (P : str → str → Prop) chunks pieces :
  Forall2 (fun chunk piece =>
             (if truthy (_source_encoding s) && truthy (_target_encoding s)
              then convert (default [] (_source_encoding s))
                           (default [] (_target_encoding s)) chunk
              else Ok chunk) = Ok piece ∧ P chunk piece) chunks pieces →
  ∀ html text,
    scramble_go s chunks html text
    = Ok (text ++ weave pieces html, drop (length pieces) html).
Proof.
  induction 1 as [|chunk piece chunks pieces [Hc _] _ IH]; intros html text;
    simpl.
  { by rewrite app_nil_r, drop_0. }
  rewrite Hc. simpl. destruct html as [|m html].
  - rewrite IH. by rewrite <-app_assoc, drop_nil.
  - rewrite IH. by rewrite <-app_assoc.
Qed.

(** X20: where the conversion does what the class promises.  When both
    encodings are set, the target codec encodes ASCII as itself and the
    source decoder passes ASCII through, [scramble] does not raise, every
    character of a scrambled chunk that the target cannot encode appears in
    the converted chunk as its decimal character reference, and the
    document is the converted chunks woven with the entries of the markup
    queue, which are not converted. *)
Theorem unencodable_becomes_reference (s : t) (e : entropy)
    (src tgt : str) (Cs Ct : Codec) :
  _source_encoding s = Some src → _target_encoding s = Some tgt →
  src ≠ [] → tgt ≠ [] →
  lookup_codec src = Some Cs → lookup_codec tgt = Some Ct →
  ascii_compatible Ct → ascii_transparent Cs →
  ∃ out sc e' pieces,
    Scrambler.scramble
      (Scrambler.feed (Scrambler.init true) (concat (_buf s))) e
    = Ok (out, sc, e')
    ∧ Forall2 (fun chunk piece =>
                 convert src tgt chunk = Ok piece
                 ∧ ∀ c, c ∈ chunk → encode_char Ct c = None →
                        ∃ l r, piece = l ++ charref c ++ r)
              (str_split marker out) pieces
    ∧ scramble s e
      = Ok (concat (weave pieces (_html s)),
            set_html (drop (length pieces) (_html s)) s, e').
Proof.
  intros Hs Ht Hsne Htne Hsrc Htgt HCt HCs.
  destruct (scramble_total (concat (_buf s)) e) as (out & sc & e' & Hout).
  destruct (convert_all src tgt Cs Ct (str_split marker out))
    as [pieces Hpieces]; try done.
  exists out, sc, e', pieces. split; [done|]. split; [done|].
  unfold scramble. rewrite Hout. simpl.
  rewrite (scramble_go_weave s
             (fun chunk piece => ∀ c, c ∈ chunk → encode_char Ct c = None →
                                      ∃ l r, piece = l ++ charref c ++ r)
             _ pieces).
  { done. }
  rewrite Hs, Ht. simpl.
  destruct src; [done|]. destruct tgt; [done|]. exact Hpieces.
Qed.

End ConversionFacts.

Lemma ascii_codec_compatible : ascii_compatible CPython.ascii_codec.
Proof.
  intros c Hc. simpl. by destruct (N.ltb_spec c 128); [|lia].
Qed.

Lemma latin1_codec_transparent : ascii_transparent CPython.latin1_codec.
Proof. by intros l a r _ _. Qed.

Lemma unencodable_becomes_reference_witness :
  ∃ out sc e' pieces,
    Scrambler.scramble
      (Scrambler.feed (Scrambler.init true)
         (concat [[CPython.U_20AC]; py "<>"; py "x"])) zeros
    = Ok (out, sc, e')
    ∧ Forall2 (fun chunk piece =>
                 HTMLScrambler.convert (py "latin-1") (py "ascii") chunk
                 = Ok piece
                 ∧ ∀ c, c ∈ chunk →
                        encode_char CPython.ascii_codec c = None →
                        ∃ l r, piece = l ++ HTMLScrambler.charref c ++ r)
              (str_split HTMLScrambler.marker out) pieces
    ∧ HTMLScrambler.scramble
        (HTMLScrambler.mk (py "https://example.com/") false
           (Some (py "latin-1")) (Some (py "ascii")) true
           [[CPython.U_20AC]; py "<>"; py "x"] [py "<br>"] true false false)
        zeros
      = Ok (concat (weave pieces [py "<br>"]),
            HTMLScrambler.mk (py "https://example.com/") false
              (Some (py "latin-1")) (Some (py "ascii")) true
              [[CPython.U_20AC]; py "<>"; py "x"]
              (drop (length pieces) [py "<br>"]) true false false, e').
Proof.
  apply (unencodable_becomes_reference
           (HTMLScrambler.mk (py "https://example.com/") false
              (Some (py "latin-1")) (Some (py "ascii")) true
              [[CPython.U_20AC]; py "<>"; py "x"] [py "<br>"] true false false)
           zeros (py "latin-1") (py "ascii")
           CPython.latin1_codec CPython.ascii_codec);
    try reflexivity; try discriminate.
  - apply ascii_codec_compatible.
  - apply latin1_codec_transparent.
Defined.

(** C6, at the failing input: with the target [ascii] and the source
    [utf-16-be] the euro sign is encoded as the reference [&#8364;], whose
    seven bytes the source codec decodes, two by two, to U+2623, U+3833 and
    U+3634, the last byte being ignored.  The character the target cannot
    represent is not escaped with a reference, as the class says it will
    be: the document holds three other characters in its place. *)
Theorem reference_lost_in_utf16 :
  ¬ (∀ (src tgt : str) (Cs Ct : Codec) (chunk : str) (c : char),
       lookup_codec src = Some Cs → lookup_codec tgt = Some Ct →
       c ∈ chunk → encode_char Ct c = None →
       ∃ out, HTMLScrambler.convert src tgt chunk = Ok out
              ∧ str_in (HTMLScrambler.charref c) out = true)
  ∧ HTMLScrambler.encode_xmlcharrefreplace CPython.ascii_codec
      [CPython.U_20AC]
    = Ok (py "&#8364;")
  ∧ HTMLScrambler.pipeline (py "https://example.com/") false
      (Some (py "utf-16-be")) (Some (py "ascii")) true
      [HTMLScrambler.Data [CPython.U_20AC]] zeros
    = Ok [9763%N; 14387%N; 13876%N].
Proof.
  split; [|split; reflexivity].
  intros Href.
  destruct (Href (py "utf-16-be") (py "ascii") CPython.utf16be_codec
              CPython.ascii_codec [CPython.U_20AC] CPython.U_20AC)
    as (out & Hout & Hin); try reflexivity.
  { vm_compute. set_solver. }
  vm_compute in Hout. injection Hout as <-.
  vm_compute in Hin. discriminate Hin.
Qed.

(** ** Two runs *)

(** C9 fails as stated: on the page [bc] the run that draws 0 answers
    [cb] and the run that draws 1 answers [bc].  With a conversion
    configured the two documents need not even have the same shape: on the
    page U+00E9 [a], with the source [latin-1] and the target [ascii], the
    run that draws 0 answers [a&#233;] and the run that draws 1 answers
    [&#233;a]. *)
Lemma two_runs_differ :
  ¬ (∀ (base : str) (hp : bool) (src tgt : option str) (sup : bool)
       (page : list HTMLScrambler.event) (e1 e2 : entropy),
       HTMLScrambler.pipeline base hp src tgt sup page e1
       = HTMLScrambler.pipeline base hp src tgt sup page e2)
  ∧ HTMLScrambler.pipeline (py "https://example.com/") false
      (Some (py "latin-1")) (Some (py "ascii")) true
      [HTMLScrambler.Data [CPython.U_00E9; 97%N]] zeros
    = Ok (py "a&#233;")
  ∧ HTMLScrambler.pipeline (py "https://example.com/") false
      (Some (py "latin-1")) (Some (py "ascii")) true
      [HTMLScrambler.Data [CPython.U_00E9; 97%N]] ones
    = Ok (py "&#233;a")
  ∧ ¬ same_shape (py "a&#233;") (py "&#233;a").
Proof.
  split; [|repeat split; try reflexivity].
  - intros Hsame.
    specialize (Hsame (py "https://example.com/") false None None true
                  [HTMLScrambler.Data (py "bc")] zeros ones).
    vm_compute in Hsame. discriminate Hsame.
  - intros Hshape. vm_compute in Hshape. discriminate Hshape.
Qed.

Section TwoRuns.
Context `{PyLib}.
Import HTMLScrambler.

Hypothesis markup : markup_literal = true.

Lemma same_shape_app x1 x2 y1 y2 :
  same_shape x1 x2 → same_shape y1 y2 → same_shape (x1 ++ y1) (x2 ++ y2).
Proof. unfold same_shape. rewrite !fmap_app. congruence. Qed.

Lemma same_shape_concat l1 l2 :
  Forall2 same_shape l1 l2 → same_shape (concat l1) (concat l2).
Proof.
  induction 1; simpl; [done|]. by apply same_shape_app.
Qed.

Lemma same_outcome_bind {A B} (R : A → A → Prop) (R' : B → B → Prop)
    (r1 r2 : result A) (k1 k2 : A → result B) :
  same_outcome R r1 r2 →
  (∀ a1 a2, R a1 a2 → same_outcome R' (k1 a1) (k2 a2)) →
  same_outcome R' (r1 ≫= k1) (r2 ≫= k2).
Proof.
  destruct r1, r2; simpl; try done. auto.
Qed.

Lemma special_eq a b : special a = true → shape_of a = shape_of b → a = b.
Proof.
  intros Ha Hab. rewrite (special_shape a markup Ha) in Hab.
  unfold shape_of in Hab.
  destruct (isalpha b); [by destruct (isupper b)|].
  destruct (isdigit b); [done|]. congruence.
Qed.

Lemma startswith_shape p : ∀ s1 s2,
  forallb special p = true → same_shape s1 s2 →
  startswith p s1 = startswith p s2.
Proof.
  induction p as [|a p IH]; intros s1 s2 Hp Hs; [done|].
  simpl in Hp. apply andb_prop in Hp as [Ha Hp].
  destruct s1 as [|b1 s1], s2 as [|b2 s2]; try done.
  unfold same_shape in Hs. rewrite !fmap_cons in Hs. simplify_eq.
  simpl. rewrite (IH s1 s2) by done. f_equal.
  apply bool_decide_ext. split; intros ->.
  - apply special_eq; [done|congruence].
  - apply special_eq; [done|congruence].
Qed.

Lemma split_go_shape s1 : ∀ s2 cur1 cur2 skip,
  same_shape s1 s2 → same_shape cur1 cur2 →
  Forall2 same_shape (split_go marker s1 cur1 skip)
                     (split_go marker s2 cur2 skip).
Proof.
  induction s1 as [|c1 s1 IH]; intros [|c2 s2] cur1 cur2 skip Hs Hcur;
    try done.
  { simpl. by constructor. }
  pose proof Hs as Hs'. unfold same_shape in Hs'. rewrite !fmap_cons in Hs'.
  simplify_eq. cbn [split_go]. destruct skip as [|k]; [|by apply IH].
  rewrite (startswith_shape marker (c1 :: s1) (c2 :: s2)) by done.
  destruct (startswith marker (c2 :: s2)).
  - constructor; [done|]. by apply IH.
  - apply IH; [done|]. apply same_shape_app; [done|].
    unfold same_shape. simpl. by f_equal.
Qed.

Lemma weave_shape ps1 ps2 : ∀ h1 h2,
  Forall2 same_shape ps1 ps2 → Forall2 same_shape h1 h2 →
  Forall2 same_shape (weave ps1 h1) (weave ps2 h2).
Proof.
  intros h1 h2 Hps. revert h1 h2.
  induction Hps as [|p1 p2 ps1 ps2 Hp _ IH]; intros h1 h2 Hh; simpl;
    [constructor|].
  destruct Hh as [|m1 m2 h1 h2 Hm Hh].
  - constructor; [done|]. apply IH. constructor.
  - constructor; [done|]. constructor; [done|]. by apply IH.
Qed.

(** *** Attribute values and tags *)

Lemma process_attr_value_shape s1 s2 tag attr value e1 e2 :
  forallb regular value = true →
  _base_url s1 = _base_url s2 → _is_honeypot s1 = _is_honeypot s2 →
  same_outcome (fun p1 p2 : str * entropy => same_shape p1.1 p2.1)
    (_process_attr_value s1 tag attr value e1)
    (_process_attr_value s2 tag attr value e2).
Proof.
  intros Hreg Hbase Hhp. unfold _process_attr_value. rewrite <-Hbase, <-Hhp.
  eapply same_outcome_bind with
    (R := fun p1 p2 : str * entropy => same_shape p1.1 p2.1).
  2:{ intros [v1 ?] [v2 ?] Hv. simpl in *. by apply escape_shape. }
  repeat match goal with
         | |- context [if ?b then _ else _] => destruct b
         end;
    try (destruct (urljoin (_base_url s1) value) as [j|]; simpl; [|done];
         destruct (quote j); simpl; done);
    try (destruct (urljoin (_base_url s1) value); simpl; done);
    try (destruct (srcset_items _ _); simpl; done);
    try done.
  destruct (scramble_shape value e1 Hreg) as (o1 & ? & ? & -> & Ho1).
  destruct (scramble_shape value e2 Hreg) as (o2 & ? & ? & -> & Ho2).
  simpl. unfold same_shape. congruence.
Qed.

Lemma build_attrs_shape s1 s2 tag a : ∀ td1 td2 e1 e2,
  regular_attrs a = true →
  _base_url s1 = _base_url s2 → _is_honeypot s1 = _is_honeypot s2 →
  _is_xhtml s1 = _is_xhtml s2 →
  same_shape (concat td1) (concat td2) →
  same_outcome (fun p1 p2 : list str * entropy =>
                  same_shape (concat p1.1) (concat p2.1))
    (build_attrs s1 tag a td1 e1) (build_attrs s2 tag a td2 e2).
Proof.
  induction a as [|[attr value] a IH]; intros td1 td2 e1 e2 Hreg Hb Hh Hx Htd.
  { done. }
  simpl in Hreg. apply andb_prop in Hreg as [Hv Ha].
  cbn [build_attrs]. destruct value as [v|].
  - eapply same_outcome_bind.
    { by apply process_attr_value_shape. }
    intros [pv1 e1'] [pv2 e2'] Hpv. simpl in Hpv. apply IH; try done.
    rewrite !concat_app. repeat apply same_shape_app; done.
  - rewrite <-Hx. destruct (_is_xhtml s1); apply IH; try done;
      rewrite !concat_app; repeat apply same_shape_app; done.
Qed.

Lemma build_starttag_shape s1 s2 tag a is_empty e1 e2 :
  regular_attrs a = true →
  _base_url s1 = _base_url s2 → _is_honeypot s1 = _is_honeypot s2 →
  _is_xhtml s1 = _is_xhtml s2 →
  same_outcome (fun p1 p2 : str * entropy => same_shape p1.1 p2.1)
    (_build_starttag s1 tag a is_empty e1)
    (_build_starttag s2 tag a is_empty e2).
Proof.
  intros Hreg Hb Hh Hx. unfold _build_starttag. rewrite <-Hx.
  eapply same_outcome_bind.
  { by apply (build_attrs_shape s1 s2 tag a [py "<"; tag] [py "<"; tag]). }
  intros [td1 e1'] [td2 e2'] Htd. simpl in *.
  repeat match goal with
         | |- context [if ?b then _ else _] => destruct b
         end;
    rewrite !concat_app; repeat apply same_shape_app; done.
Qed.

(** *** Handlers *)

Lemma twin_fields s1 s2 :
  twin s1 s2 →
  ∃ html, s2 = set_html html s1 ∧ Forall2 same_shape (_html s1) html.
Proof.
  intros [Heq Hh]. exists (_html s2). split; [|exact Hh].
  destruct s1, s2. unfold set_html in *. simpl in *.
  injection Heq; intros; by subst.
Qed.

Ltac twin_solve :=
  split; simpl;
  [done
  |first
     [done
     |apply Forall2_app;
      [done|constructor; [first [done|by unfold same_shape]|constructor]]]].

Lemma handle_twin s1 s2 ev e1 e2 :
  regular_event ev = true → twin s1 s2 →
  same_outcome (fun p1 p2 : t * entropy => twin p1.1 p2.1)
    (handle s1 ev e1) (handle s2 ev e2).
Proof.
  intros Hreg (html & -> & Hh)%twin_fields.
  destruct ev; simpl in *;
    unfold handle_starttag, handle_startendtag, handle_endtag, handle_data,
      handle_entityref, handle_charref, handle_comment, handle_decl; simpl;
    repeat match goal with
           | |- context [if ?b then _ else _] => destruct b eqn:?; simpl
           end;
    try (by twin_solve);
    (eapply same_outcome_bind; [by apply build_starttag_shape|];
     intros [m1 ?] [m2 ?] Hm; simpl in *; by twin_solve).
Qed.

Lemma feed_twin page : ∀ s1 s2 e1 e2,
  forallb regular_event page = true → twin s1 s2 →
  same_outcome (fun p1 p2 : t * entropy => twin p1.1 p2.1)
    (feed s1 page e1) (feed s2 page e2).
Proof.
  induction page as [|ev page IH]; intros s1 s2 e1 e2 Hreg Htw; [done|].
  simpl in Hreg. apply andb_prop in Hreg as [Hev Hpage].
  cbn [feed]. eapply same_outcome_bind; [by apply handle_twin|].
  intros [s1' e1'] [s2' e2'] Htw'. by apply IH.
Qed.

(** The text buffer of a regular page is regular, and the encodings stay
    as constructed. *)
Lemma marker_regular : forallb regular marker = true.
Proof.
  assert (∀ c, special c = true → regular c = true) as Hsp.
  { intros c Hc. unfold regular.
    by destruct (markup_literal_spec c markup Hc) as [-> _]. }
  simpl. by rewrite !Hsp.
Qed.

Lemma handle_buf s ev e s' e' :
  handle s ev e = Ok (s', e') → regular_event ev = true →
  Forall (fun x => forallb regular x = true) (_buf s) →
  Forall (fun x => forallb regular x = true) (_buf s')
  ∧ _source_encoding s' = _source_encoding s
  ∧ _target_encoding s' = _target_encoding s.
Proof.
  pose proof marker_regular as Hm.
  destruct ev; simpl;
    unfold handle_starttag, handle_startendtag, handle_endtag, handle_data,
      handle_entityref, handle_charref, handle_comment, handle_decl;
    intros Hh Hreg Hbuf;
    repeat match type of Hh with
      | context [if ?b then _ else _] => destruct b eqn:?; simpl in Hh
      | context [_build_starttag ?s ?t ?a ?i ?e] =>
          destruct (_build_starttag s t a i e) as [[??]|]; simpl in Hh
      end;
    simplify_eq; simpl; repeat split; try done;
    apply Forall_app; split; try done; by repeat constructor.
Qed.

Lemma feed_buf page : ∀ s e s' e',
  feed s page e = Ok (s', e') → forallb regular_event page = true →
  Forall (fun x => forallb regular x = true) (_buf s) →
  Forall (fun x => forallb regular x = true) (_buf s')
  ∧ _source_encoding s' = _source_encoding s
  ∧ _target_encoding s' = _target_encoding s.
Proof.
  induction page as [|ev page IH]; intros s e s' e' Hfeed Hreg Hbuf.
  { simpl in Hfeed. by simplify_eq. }
  simpl in Hreg. apply andb_prop in Hreg as [Hev Hpage].
  cbn [feed] in Hfeed.
  destruct (handle s ev e) as [[s1 e1]|] eqn:Hh; [|done].
  destruct (handle_buf _ _ _ _ _ Hh Hev Hbuf) as (Hb1 & <- & <-).
  by apply (IH s1 e1 s' e').
Qed.

Lemma concat_regular l :
  Forall (fun x => forallb regular x = true) l →
  forallb regular (concat l) = true.
Proof.
  induction 1 as [|x l Hx _ IH]; [done|].
  simpl. rewrite forallb_app. by rewrite Hx, IH.
Qed.

(** The text buffer of a page over an alphabet is over the alphabet, and
    so are the pieces between the markers. *)
Lemma handle_alphabet (P : char → bool) s ev e s' e' :
  handle s ev e = Ok (s', e') → in_alphabet P ev = true →
  forallb P marker = true →
  Forall (fun x => forallb P x = true) (_buf s) →
  Forall (fun x => forallb P x = true) (_buf s').
Proof.
  destruct ev; simpl;
    unfold handle_starttag, handle_startendtag, handle_endtag, handle_data,
      handle_entityref, handle_charref, handle_comment, handle_decl;
    intros Hh Hev Hm Hbuf;
    repeat match type of Hh with
      | context [if ?b then _ else _] => destruct b eqn:?; simpl in Hh
      | context [_build_starttag ?s ?t ?a ?i ?e] =>
          destruct (_build_starttag s t a i e) as [[??]|]; simpl in Hh
      end;
    simplify_eq; simpl; try done;
    apply Forall_app; split; try done; by repeat constructor.
Qed.

Lemma feed_alphabet (P : char → bool) page : ∀ s e s' e',
  feed s page e = Ok (s', e') → forallb (in_alphabet P) page = true →
  forallb P marker = true →
  Forall (fun x => forallb P x = true) (_buf s) →
  Forall (fun x => forallb P x = true) (_buf s').
Proof.
  induction page as [|ev page IH]; intros s e s' e' Hfeed Hpage Hm Hbuf.
  { simpl in Hfeed. by simplify_eq. }
  simpl in Hpage. apply andb_prop in Hpage as [Hev Hpage].
  cbn [feed] in Hfeed.
  destruct (handle s ev e) as [[s1 e1]|] eqn:Hh; [|done].
  apply (IH s1 e1 s' e'); try done. by eapply handle_alphabet.
Qed.

Lemma concat_alphabet (P : char → bool) l :
  Forall (fun x => forallb P x = true) l → forallb P (concat l) = true.
Proof.
  induction 1 as [|x l Hx _ IH]; [done|].
  simpl. rewrite forallb_app. by rewrite Hx, IH.
Qed.

Lemma split_go_alphabet (P : char → bool) sep s : ∀ cur skip,
  forallb P s = true → forallb P cur = true →
  Forall (fun x => forallb P x = true) (split_go sep s cur skip).
Proof.
  induction s as [|c s IH]; intros cur skip Hs Hcur; cbn [split_go].
  { by constructor. }
  cbn [forallb] in Hs. apply andb_prop in Hs as [Hc Hs].
  destruct skip as [|k]; [|by apply IH].
  destruct (startswith sep (c :: s)).
  - constructor; [done|]. by apply IH.
  - apply IH; [done|]. rewrite forallb_app. cbn [forallb]. by rewrite Hcur, Hc.
Qed.

(** A conversion that acts character by character and leaves letters and
    digits as they are keeps two strings of the same shape of the same
    shape. *)
Lemma bind_same_shape (P : char → bool) (f : char → str) x1 : ∀ x2,
  (∀ c, P c = true → isalpha c || isdigit c = true → f c = [c]) →
  forallb P x1 = true → forallb P x2 = true →
  same_shape x1 x2 → same_shape (x1 ≫= f) (x2 ≫= f).
Proof.
  induction x1 as [|a x1 IH]; intros [|b x2] Hf H1 H2 Hs; try done.
  cbn [forallb] in H1, H2.
  apply andb_prop in H1 as [Ha H1]. apply andb_prop in H2 as [Hb H2].
  unfold same_shape in Hs. rewrite !fmap_cons in Hs.
  assert (shape_of a = shape_of b) as Hab by congruence.
  assert (same_shape x1 x2) as Hx by (unfold same_shape; congruence).
  rewrite !bind_cons. apply same_shape_app; [|by apply IH].
  pose proof (Hf a Ha) as Hfa. pose proof (Hf b Hb) as Hfb.
  assert (same_shape [a] [b]) as Hsingle
    by (unfold same_shape; by rewrite !fmap_cons, Hab).
  unfold shape_of in Hab.
  destruct (isalpha a), (isalpha b); cbn [orb] in Hfa, Hfb.
  - by rewrite Hfa, Hfb.
  - destruct (isupper a), (isdigit b); done.
  - destruct (isupper b), (isdigit a); done.
  - destruct (isdigit a), (isdigit b); try done.
    + by rewrite Hfa, Hfb.
    + by simplify_eq.
Qed.

(** *** Reassembly *)

Lemma scramble_twin s1 s2 e1 e2 (P : char → bool) (f : char → str) :
  twin s1 s2 →
  Forall (fun x => forallb regular x = true) (_buf s1) →
  (truthy (_source_encoding s1) && truthy (_target_encoding s1) = true →
   Forall (fun x => forallb P x = true) (_buf s1)
   ∧ case_closed P
   ∧ converts_by (default [] (_source_encoding s1))
                 (default [] (_target_encoding s1)) P f
   ∧ ∀ c, P c = true → isalpha c || isdigit c = true → f c = [c]) →
  same_outcome (fun p1 p2 : str * t * entropy => same_shape p1.1.1 p2.1.1)
    (scramble s1 e1) (scramble s2 e2).
Proof.
  intros (html & -> & Hh)%twin_fields Hbuf Hconv. unfold scramble. simpl.
  apply concat_regular in Hbuf.
  destruct (scramble_shape _ e1 Hbuf) as (o1 & sc1 & e1' & Hs1 & Ho1).
  destruct (scramble_shape _ e2 Hbuf) as (o2 & sc2 & e2' & Hs2 & Ho2).
  assert (Forall2 same_shape (str_split marker o1) (str_split marker o2))
    as Hsplit.
  { apply split_go_shape; [|done]. unfold same_shape. congruence. }
  rewrite Hs1, Hs2. simpl.
  destruct (truthy (_source_encoding s1) && truthy (_target_encoding s1))
    eqn:Hc.
  - destruct (Hconv eq_refl) as (HP & Hclosed & Hby & Hf).
    apply concat_alphabet in HP.
    assert (∀ o sc e e',
              Scrambler.scramble
                (Scrambler.feed (Scrambler.init true) (concat (_buf s1))) e
              = Ok (o, sc, e') →
              Forall (fun x => forallb P x = true) (str_split marker o))
      as Hover.
    { intros o sc e e' Hs.
      destruct (scramble_alphabet P _ e Hbuf HP Hclosed)
        as (o' & sc' & e0 & Hs' & HPo).
      assert (o' = o) as -> by congruence.
      by apply (split_go_alphabet P marker o [] 0). }
    pose proof (Hover _ _ _ _ Hs1) as Hover1.
    pose proof (Hover _ _ _ _ Hs2) as Hover2.
    assert (∀ s0 chunks,
              _source_encoding s0 = _source_encoding s1 →
              _target_encoding s0 = _target_encoding s1 →
              Forall (fun x => forallb P x = true) chunks →
              Forall2 (fun chunk piece =>
                 (if truthy (_source_encoding s0) && truthy (_target_encoding s0)
                  then convert (default [] (_source_encoding s0))
                               (default [] (_target_encoding s0)) chunk
                  else Ok chunk) = Ok piece ∧ True)
                chunks ((fun chunk => chunk ≫= f) <$> chunks)) as Hpieces.
    { intros s0 chunks -> -> Hchunks. rewrite Hc.
      apply Forall2_fmap_r, Forall_Forall2_diag.
      eapply Forall_impl; [exact Hchunks|].
      intros chunk Hchunk. split; [by apply Hby|done]. }
    rewrite (scramble_go_weave s1 (fun _ _ => True) _ _
               (Hpieces s1 _ eq_refl eq_refl Hover1)).
    rewrite (scramble_go_weave (set_html html s1) (fun _ _ => True) _ _
               (Hpieces (set_html html s1) _ eq_refl eq_refl Hover2)).
    simpl. apply same_shape_concat, weave_shape; [|done].
    apply Forall2_fmap.
    clear Hs1 Hs2 Ho1 Ho2 Hover.
    induction Hsplit as [|x1 x2 l1 l2 Hx _ IH]; [constructor|].
    apply Forall_cons in Hover1 as [Hx1 Hover1].
    apply Forall_cons in Hover2 as [Hx2 Hover2].
    constructor; [by apply (bind_same_shape P f)|by apply IH].
  - assert (∀ s0 chunks,
              _source_encoding s0 = _source_encoding s1 →
              _target_encoding s0 = _target_encoding s1 →
              Forall2 (fun chunk piece =>
                 (if truthy (_source_encoding s0) && truthy (_target_encoding s0)
                  then convert (default [] (_source_encoding s0))
                               (default [] (_target_encoding s0)) chunk
                  else Ok chunk) = Ok piece ∧ True) chunks chunks) as Hid.
    { intros s0 chunks -> ->. rewrite Hc.
      apply Forall_Forall2_diag, Forall_forall. done. }
    rewrite (scramble_go_weave s1 (fun _ _ => True) _ _
               (Hid s1 _ eq_refl eq_refl)).
    rewrite (scramble_go_weave (set_html html s1) (fun _ _ => True) _ _
               (Hid (set_html html s1) _ eq_refl eq_refl)).
    simpl. by apply same_shape_concat, weave_shape.
Qed.

(** C9, as the code has it: the document depends on the draws of the
    system random number generator, but only in which letter or digit
    stands where.  For a page of regular text and attribute values, two
    runs on the same inputs raise the same exception or produce documents
    of the same shape: they have the same length, the same character
    wherever it is neither a letter nor a digit, and upper-case letters,
    other letters and digits at the same positions.  This holds with no
    encoding conversion configured, and with one configured when the text
    of the page is written over a set of characters that holds [<] and
    [>], is closed under the case mappings, and on whose strings the
    conversion acts character by character, leaving the letters and the
    digits of the set as they are; a character that is neither may be
    replaced, by its reference for one. *)
Theorem two_runs_same_shape (base : str) (hp : bool) (src tgt : option str)
    (sup : bool) (page : list event) (e1 e2 : entropy) (P : char → bool)
    (f : char → str) :
  forallb regular_event page = true →
  (truthy src && truthy tgt = true →
   forallb (in_alphabet P) page = true
   ∧ forallb P marker = true
   ∧ case_closed P
   ∧ converts_by (default [] src) (default [] tgt) P f
   ∧ ∀ c, P c = true → isalpha c || isdigit c = true → f c = [c]) →
  same_outcome same_shape
    (pipeline base hp src tgt sup page e1)
    (pipeline base hp src tgt sup page e2).
Proof.
  intros Hreg Halpha. unfold pipeline.
  set (s0 := init base hp src tgt sup).
  assert (twin s0 s0) as Htw by (split; [done|constructor]).
  pose proof (feed_twin page s0 s0 e1 e2 Hreg Htw) as Hfeed.
  destruct (feed s0 page e1) as [[s1 e1']|] eqn:H1,
           (feed s0 page e2) as [[s2 e2']|] eqn:H2; simpl in *; try done.
  destruct (feed_buf _ _ _ _ _ H1 Hreg) as (Hbuf & Hs & Ht); [constructor|].
  simpl in Hs, Ht.
  assert (truthy (_source_encoding s1) && truthy (_target_encoding s1) = true →
          Forall (fun x => forallb P x = true) (_buf s1)
          ∧ case_closed P
          ∧ converts_by (default [] (_source_encoding s1))
                        (default [] (_target_encoding s1)) P f
          ∧ ∀ c, P c = true → isalpha c || isdigit c = true → f c = [c])
    as Hconv1.
  { rewrite Hs, Ht. intros Hconv.
    destruct (Halpha Hconv) as (Hpage & Hm & Hclosed & Hby & Hf).
    split; [|done].
    eapply (feed_alphabet P); [exact H1|done|done|constructor]. }
  pose proof (scramble_twin s1 s2 e1' e2' P f Hfeed Hbuf Hconv1) as Hscr.
  destruct (scramble s1 e1') as [[[d1 ?] ?]|], (scramble s2 e2') as [[[d2 ?] ?]|];
    simpl in *; done.
Qed.

End TwoRuns.

(** On the concrete tables: the ASCII characters together with the
    characters that are neither letters nor digits are closed under the
    case mappings, and the conversion from [ascii] back through [latin-1]
    leaves an ASCII character as it is and replaces any other by its
    reference. *)
Lemma ascii_case_closed : case_closed ascii_or_symbol.
Proof.
  intros c l u Hc Ha Hl Hu. unfold ascii_or_symbol in Hc.
  rewrite Ha in Hc. cbn [orb negb] in Hc. rewrite orb_false_r in Hc.
  apply N.ltb_lt in Hc.
  assert (forallb (fun n =>
            match lower (N.of_nat n) with
            | [l] =>
                match upper l with
                | [u] => (l <? 128)%N && (u <? 128)%N
                | _ => true
                end
            | _ => true
            end) (seq 0 128) = true) as Hall by (vm_compute; reflexivity).
  rewrite forallb_forall in Hall.
  specialize (Hall (N.to_nat c)). rewrite N2Nat.id, Hl, Hu in Hall.
  unfold ascii_or_symbol.
  assert ((l <? 128)%N && (u <? 128)%N = true) as [-> ->]%andb_prop
    by (apply Hall, in_seq; lia).
  done.
Qed.

Lemma latin1_ascii_converts :
  converts_by (py "latin-1") (py "ascii") ascii_or_symbol
    reference_beyond_ascii.
Proof.
  intros chunk _.
  assert (HTMLScrambler.encode_xmlcharrefreplace CPython.ascii_codec chunk
          = Ok (chunk ≫= reference_beyond_ascii)) as Henc.
  { induction chunk as [|c chunk IH]; [done|].
    cbn [HTMLScrambler.encode_xmlcharrefreplace encode_char
         CPython.ascii_codec].
    rewrite IH, bind_cons. unfold reference_beyond_ascii at 2.
    destruct (c <? 128)%N; [done|].
    by rewrite (encode_strict_ascii _ _ ascii_codec_compatible
                  (charref_ascii c)). }
  unfold HTMLScrambler.convert, HTMLScrambler.codec.
  change (lookup_codec (py "ascii")) with (Some CPython.ascii_codec).
  change (lookup_codec (py "latin-1")) with (Some CPython.latin1_codec).
  cbn [mbind result_bind]. by rewrite Henc.
Qed.

Lemma reference_beyond_ascii_keeps c :
  ascii_or_symbol c = true → isalpha c || isdigit c = true →
  reference_beyond_ascii c = [c].
Proof.
  unfold ascii_or_symbol, reference_beyond_ascii. intros Hc Hk.
  rewrite Hk in Hc. cbn [negb] in Hc. rewrite orb_false_r in Hc.
  by rewrite Hc.
Qed.

Lemma two_runs_same_shape_witness :
  same_outcome same_shape
    (HTMLScrambler.pipeline (py "https://example.com/") false
       (Some (py "latin-1")) (Some (py "ascii")) true
       [HTMLScrambler.StartTag (py "img") [(py "alt", Some (py "Big cat"))];
        HTMLScrambler.Data (py "Hello, World 42 " ++ [CPython.U_20AC])] zeros)
    (HTMLScrambler.pipeline (py "https://example.com/") false
       (Some (py "latin-1")) (Some (py "ascii")) true
       [HTMLScrambler.StartTag (py "img") [(py "alt", Some (py "Big cat"))];
        HTMLScrambler.Data (py "Hello, World 42 " ++ [CPython.U_20AC])] ones).
Proof.
  apply (two_runs_same_shape ascii_markup_literal
           (py "https://example.com/") false
           (Some (py "latin-1")) (Some (py "ascii")) true _ zeros ones
           ascii_or_symbol reference_beyond_ascii).
  - reflexivity.
  - intros _. split; [reflexivity|]. split; [reflexivity|].
    split; [apply ascii_case_closed|].
    split; [apply latin1_ascii_converts|apply reference_beyond_ascii_keeps].
Defined.

(** * Further properties *)

(** ** The scrambler across calls *)

Section ScramblerCalls.
Context `{PyLib}.
Import Scrambler.

(** X1: [feed] accumulates: feeding two texts one after the other leaves
    the scrambler as feeding their concatenation does. *)
Theorem feed_accumulates (s : t) (a b : str) :
  feed (feed s a) b = feed s (a ++ b).
Proof. unfold feed. by rewrite foldl_app. Qed.

Lemma need_digits_app a b : need_digits (a ++ b) = need_digits a + need_digits b.
Proof. induction a as [|c a IH]; simpl; [done|]. rewrite IH. lia. Qed.

Lemma set_fields b l s :
  _buf (set b l s) = _buf s ∧ _digits (set b l s) = _digits s
  ∧ _preserve_letter_distribution (set b l s) = _preserve_letter_distribution s.
Proof. by destruct b. Qed.

(** [feed] files a digit for every digit position it records. *)
Lemma feed_char_digits s c :
  need_digits (_buf s) ≤ length (_digits s) →
  need_digits (_buf (feed_char s c)) ≤ length (_digits (feed_char s c)).
Proof.
  intros Hs. unfold feed_char.
  destruct (isalpha c) eqn:Ha.
  - destruct (set_fields (feed_bucket (set_buf (_buf s ++ [c]) s) (lower c))
                (get (feed_bucket (set_buf (_buf s ++ [c]) s) (lower c))
                     (set_buf (_buf s ++ [c]) s) ++ [lower c])
                (set_buf (_buf s ++ [c]) s)) as (-> & -> & _).
    simpl. rewrite need_digits_app. simpl. rewrite Ha. simpl. lia.
  - destruct (isdigit c) eqn:Hd; simpl; rewrite need_digits_app; simpl;
      rewrite Ha, Hd; simpl; rewrite ?length_app; simpl; lia.
Qed.

Lemma feed_digits text : ∀ s,
  need_digits (_buf s) ≤ length (_digits s) →
  need_digits (_buf (feed s text)) ≤ length (_digits (feed s text)).
Proof.
  induction text as [|c text IH]; intros s Hs; [done|].
  apply (IH (feed_char s c)). by apply feed_char_digits.
Qed.

Lemma pop_letter_fields s c x s' :
  _pop_letter s c = Ok (x, s') →
  _buf s' = _buf s ∧ _digits s' = _digits s
  ∧ _preserve_letter_distribution s' = _preserve_letter_distribution s.
Proof.
  unfold _pop_letter, _pop_letter_try.
  destruct (get (pop_bucket s c) s) as [|y l]; simpl; intros Hp;
    simplify_eq; [done|]. apply set_fields.
Qed.

Lemma flush_go_mode buf : ∀ s text out s',
  flush_go buf s text = Ok (out, s') →
  _preserve_letter_distribution s' = _preserve_letter_distribution s.
Proof.
  induction buf as [|c buf IH]; intros s text out s' Hf; simpl in Hf.
  { by simplify_eq. }
  destruct (isalpha c).
  - destruct (_pop_letter s c) as [[x s1]|] eqn:Hp; simpl in Hf; [|done].
    apply pop_letter_fields in Hp as (_ & _ & <-).
    destruct (isupper c); by eapply IH.
  - destruct (isdigit c); [|by eapply IH].
    destruct (_digits s) as [|d l]; simpl in Hf; [done|].
    by apply IH in Hf.
Qed.

(** The scrambler just before [flush], in terms of the one [scramble] was
    called on. *)
Lemma scramble_unfold s e :
  ∃ a c v d e',
    length d = length (_digits s)
    ∧ scramble s e
      = flush (mk (_buf s) a c v d (_preserve_letter_distribution s))
        ≫= fun '(text, s') => Ok (text, s', e').
Proof.
  unfold scramble. destruct s as [buf a c v d pld]. simpl.
  destruct (shuffle a e) as [a' e1]. simpl. destruct pld; simpl.
  - destruct (shuffle c e1) as [c' e2]. simpl.
    destruct (shuffle v e2) as [v' e3]. simpl.
    destruct (shuffle d e3) as [d' e4] eqn:Ed. simpl.
    pose proof (shuffle_perm d e3) as Pd. rewrite Ed in Pd. simpl in Pd.
    exists a', c', v', d', e4. split; [by apply Permutation_length|done].
  - destruct (shuffle d e1) as [d' e4] eqn:Ed. simpl.
    pose proof (shuffle_perm d e1) as Pd. rewrite Ed in Pd. simpl in Pd.
    exists a', c, v, d', e4. split; [by apply Permutation_length|done].
Qed.

Lemma scramble_result s e out s' e' :
  scramble s e = Ok (out, s', e') →
  s' = init (_preserve_letter_distribution s).
Proof.
  destruct (scramble_unfold s e) as (a & c & v & d & e1 & _ & ->).
  unfold flush. simpl.
  destruct (flush_go _ _ _) as [[text s1]|] eqn:Hf; simpl; [|done].
  intros Hs. simplify_eq. apply flush_go_mode in Hf. simpl in Hf.
  unfold clear, init. by rewrite Hf.
Qed.

Lemma reachable_digits s :
  reachable s → need_digits (_buf s) ≤ length (_digits s).
Proof.
  induction 1 as [pld|s text _ IH|s _ _|s e out s' e' _ _ Hs]; simpl; try done.
  - by apply feed_digits.
  - apply scramble_result in Hs as ->. done.
Qed.

(** X2: [scramble] does not raise, whatever calls of [feed], [clear] and
    [scramble] came before, in either mode: the digit list is never short
    of a digit, and an empty letter list is caught. *)
Theorem scramble_never_raises (s : t) (e : entropy) :
  reachable s → ∃ out s' e', scramble s e = Ok (out, s', e').
Proof.
  intros Hd%reachable_digits.
  destruct (scramble_unfold s e) as (a & c & v & d & e1 & Hlen & ->).
  unfold flush. simpl.
  edestruct (flush_go_total (_buf s)) as (out & s' & ->); [|simpl; eauto].
  simpl. by rewrite Hlen.
Qed.

(** X3: [scramble] leaves the scrambler empty: the state it returns is the
    freshly constructed one of the same mode, and a second [scramble]
    answers the empty string without drawing. *)
Theorem scramble_clears (s : t) (e : entropy) (out : str) (s' : t)
    (e' : entropy) :
  scramble s e = Ok (out, s', e') →
  s' = init (_preserve_letter_distribution s)
  ∧ ∀ e2, scramble s' e2 = Ok ([], s', e2).
Proof.
  intros Hs. pose proof (scramble_result _ _ _ _ _ Hs) as ->.
  split; [done|]. intros e2. by destruct (_preserve_letter_distribution s).
Qed.

End ScramblerCalls.

Lemma scramble_never_raises_witness :
  ∃ out s' e',
    Scrambler.scramble
      (Scrambler.feed
         (Scrambler.clear (Scrambler.feed (Scrambler.init false) (py "x1")))
         [50%N; CPython.U_2102; 51%N]) ones
    = Ok (out, s', e').
Proof.
  apply scramble_never_raises.
  apply reach_feed, reach_clear, reach_feed, reach_init.
Defined.

Lemma scramble_clears_witness :
  Scrambler.init true
  = Scrambler.init
      (Scrambler._preserve_letter_distribution
         (Scrambler.feed (Scrambler.init true) (py "Hello 42")))
  ∧ ∀ e2, Scrambler.scramble (Scrambler.init true) e2
          = Ok ([], Scrambler.init true, e2).
Proof.
  apply (scramble_clears
           (Scrambler.feed (Scrambler.init true) (py "Hello 42")) ones
           (py "Hello 42") (Scrambler.init true) ones).
  reflexivity.
Defined.

(** ** What scrambling keeps of a text *)

Section ScramblerKeeps.
Context `{PyLib}.
Import Scrambler.

(** X4: scrambling a text of regular characters keeps its length, leaves
    every character that is neither letter nor digit where it is, puts a
    letter of the same case where there is a letter and a digit where there
    is a digit. *)
Theorem scramble_fixes_literals (text : list char) (e : entropy) :
  forallb regular text = true →
  ∃ out : list char,
    scramble_text text e = Ok out
    ∧ length out = length text
    ∧ ∀ i c, text !! i = Some c →
        ∃ o, out !! i = Some o
             ∧ if isalpha c then isalpha o = true ∧ isupper o = isupper c
               else if isdigit c then isalpha o = false ∧ isdigit o = true
               else o = c.
Proof.
  intros Hreg. unfold scramble_text.
  destruct (scramble_shape text e Hreg) as (out & s' & e' & -> & Hout).
  exists out. split; [done|]. split.
  { by rewrite <-(length_fmap shape_of out), Hout, length_fmap. }
  intros i c Hc.
  assert ((shape_of <$> out) !! i = Some (shape_of c)) as Ho
    by (by rewrite Hout, list_lookup_fmap, Hc).
  rewrite list_lookup_fmap in Ho.
  apply fmap_Some in Ho as (o & Hoi & Hs).
  exists o. split; [exact Hoi|]. unfold shape_of in Hs.
  destruct (isalpha c), (isalpha o); try done;
    repeat match type of Hs with
           | context [if ?b then _ else _] => destruct b eqn:?
           end; by simplify_eq.
Qed.

Lemma faithful_regular text :
  forallb faithful text = true → forallb regular text = true.
Proof.
  induction text as [|c text IH]; simpl; [done|].
  intros [Hc Ht]%andb_prop. unfold faithful in Hc.
  apply andb_prop in Hc as [-> _]. by apply IH.
Qed.

Lemma routed_good_in b text :
  forallb faithful text = true → Forall (good_in b) (routed b text).
Proof.
  induction text as [|c text IH]; simpl; [constructor|].
  intros [Hc Ht]%andb_prop. unfold routed. simpl.
  destruct (isalpha c) eqn:Ha; simpl; [|by apply IH].
  case_bool_decide as Hb; simpl; [|by apply IH].
  constructor; [|by apply IH].
  unfold faithful, regular in Hc. rewrite Ha in Hc.
  destruct (lower c) as [|l [|??]]; try done.
  destruct (upper l) as [|u [|??]] eqn:Hu; try done.
  apply andb_prop in Hc as [Hc [Hll Hlu]%andb_prop].
  apply bool_decide_eq_true_1 in Hll, Hlu.
  repeat (apply andb_prop in Hc as [Hc ?]).
  by exists l, u.
Qed.

Lemma routed_app b x y : routed b (x ++ y) = routed b x ++ routed b y.
Proof. apply omap_app. Qed.

Lemma routed_digits_app x y :
  routed_digits (x ++ y) = routed_digits x ++ routed_digits y.
Proof. apply omap_app. Qed.

(** Replay takes the strings of each list in order: what it has emitted
    is, class by class, the list it started from. *)
Lemma flush_go_fifo buf : ∀ s text,
  _preserve_letter_distribution s = true →
  (∀ b, need b buf = length (get b s)) →
  need_digits buf = length (_digits s) →
  (∀ b, Forall (good_in b) (get b s)) →
  Forall good_digit (_digits s) →
  ∃ out s',
    flush_go buf s text = Ok (text ++ out, s')
    ∧ (∀ b, get b s = routed b (concat out))
    ∧ _digits s = routed_digits (concat out).
Proof.
  induction buf as [|c buf IH]; intros s text Hpld Hl Hd Hg Hgd.
  { exists [], s. simpl. rewrite app_nil_r. split; [done|]. split.
    - intros b. specialize (Hl b). simpl in Hl.
      by destruct (get b s).
    - simpl in Hd. by destruct (_digits s). }
  cbn [flush_go]. destruct (isalpha c) eqn:Ha.
  - set (b0 := pop_bucket (init true) c).
    pose proof (Hl b0) as Hlen. pose proof (Hg b0) as Hgood.
    simpl in Hlen. rewrite Ha in Hlen. fold b0 in Hlen.
    rewrite bool_decide_eq_true_2 in Hlen by done.
    unfold _pop_letter, _pop_letter_try. rewrite (pop_bucket_pld s c Hpld).
    fold b0. destruct (get b0 s) as [|x l] eqn:Hget; [done|].
    cbn [pop0 mbind result_bind].
    apply Forall_cons in Hgood
      as [(l0 & u & -> & Hu & Hal & Hau & Hll & Hlu & Hb0) Hgood].
    assert (∀ b, get b (set b0 l s)
                 = if decide (b = b0) then l else get b s) as Hgs
      by (intros b; apply get_set).
    destruct (set_fields b0 l s) as (_ & Hsd & Hsp).
    destruct (IH (set b0 l s)
                (text ++ [if isupper c then str_upper [l0] else [l0]]))
      as (out & s' & Heq & Hout & Hdig).
    { by rewrite Hsp. }
    { intros b. rewrite Hgs. specialize (Hl b). simpl in Hl.
      rewrite Ha in Hl. fold b0 in Hl.
      destruct (decide (b = b0)) as [->|Hb].
      - simpl in Hlen. lia.
      - rewrite bool_decide_eq_false_2 in Hl by done. done. }
    { rewrite Hsd. simpl in Hd. by rewrite Ha in Hd. }
    { intros b. rewrite Hgs. destruct (decide (b = b0)) as [->|Hb];
        [done|apply Hg]. }
    { by rewrite Hsd. }
    exists ((if isupper c then str_upper [l0] else [l0]) :: out), s'.
    split.
    { destruct (isupper c); by rewrite Heq, <-app_assoc. }
    assert (∃ o, (if isupper c then str_upper [l0] else [l0]) = [o]
                 ∧ isalpha o = true ∧ lower o = [l0]) as (o & -> & Hao & Hlo).
    { destruct (isupper c).
      - exists u. unfold str_upper. simpl. by rewrite Hu.
      - by exists l0. }
    split.
    + intros b. rewrite concat_cons, routed_app, <-Hout, Hgs.
      unfold routed at 1. simpl. rewrite Hao, Hlo, Hb0. simpl.
      destruct (decide (b = b0)) as [->|Hb].
      * by rewrite bool_decide_eq_true_2, Hget.
      * by rewrite bool_decide_eq_false_2.
    + rewrite concat_cons, routed_digits_app, <-Hdig, Hsd.
      unfold routed_digits at 1. simpl. by rewrite Hao.
  - destruct (isdigit c) eqn:Hdg.
    + simpl in Hd. rewrite Ha, Hdg in Hd. simpl in Hd.
      destruct (_digits s) as [|x l] eqn:Hdigits; [done|].
      cbn [pop0 mbind result_bind].
      apply Forall_cons in Hgd as [(d & -> & Hsd) Hgd].
      assert (isalpha d = false ∧ isdigit d = true) as [Had Hdd].
      { unfold shape_of in Hsd.
        destruct (isalpha d); [by destruct (isupper d)|].
        by destruct (isdigit d). }
      destruct (IH (set_digits l s) (text ++ [[d]]))
        as (out & s' & Heq & Hout & Hdig).
      { by simpl. }
      { intros b. specialize (Hl b). simpl in Hl. rewrite Ha in Hl.
        by destruct b. }
      { simpl in *. lia. }
      { intros b. specialize (Hg b). by destruct b. }
      { by simpl. }
      exists ([d] :: out), s'. split.
      { etrans; [exact Heq|]. by rewrite <-app_assoc. }
      split.
      * intros b. rewrite concat_cons, (routed_app b [d]), <-Hout.
        unfold routed at 1. simpl. rewrite Had. by destruct b.
      * rewrite concat_cons, (routed_digits_app [d]), <-Hdig.
        unfold routed_digits at 1. simpl. by rewrite Had, Hdd.
    + destruct (IH s (text ++ [[c]])) as (out & s' & Heq & Hout & Hdig).
      { done. }
      { intros b. specialize (Hl b). simpl in Hl. by rewrite Ha in Hl. }
      { simpl in Hd. by rewrite Ha, Hdg in Hd. }
      { done. }
      { done. }
      exists ([c] :: out), s'. split.
      { etrans; [exact Heq|]. by rewrite <-app_assoc. }
      split.
      * intros b. rewrite concat_cons, (routed_app b [c]), <-Hout.
        unfold routed at 1. simpl. by rewrite Ha.
      * rewrite concat_cons, (routed_digits_app [c]), <-Hdig.
        unfold routed_digits at 1. simpl. by rewrite Ha, Hdg.
Qed.

(** X5: scrambling permutes within each class.  For a text of faithful
    characters, feeding the output to a fresh scrambler fills each of the
    three letter lists and the digit list with a permutation of what
    feeding the text fills them with: no letter or digit is lost, invented
    or moved to another class. *)
Theorem scramble_permutes_classes (text : str) (e : entropy) :
  forallb faithful text = true →
  ∃ out,
    scramble_text text e = Ok out
    ∧ (∀ b, get b (feed (init true) out) ≡ₚ get b (feed (init true) text))
    ∧ _digits (feed (init true) out) ≡ₚ _digits (feed (init true) text).
Proof.
  intros Hf. pose proof (faithful_regular text Hf) as Hreg.
  unfold scramble_text, scramble.
  rewrite !(feed_spec _ (init true) eq_refl). simpl.
  destruct (shuffle (routed Alpha text) e) as [a e1] eqn:Ea. simpl.
  destruct (shuffle (routed Cons text) e1) as [c e2] eqn:Ec. simpl.
  destruct (shuffle (routed Vowels text) e2) as [v e3] eqn:Ev. simpl.
  destruct (shuffle (routed_digits text) e3) as [d e4] eqn:Ed. simpl.
  pose proof (shuffle_perm (routed Alpha text) e) as Pa. rewrite Ea in Pa.
  pose proof (shuffle_perm (routed Cons text) e1) as Pc. rewrite Ec in Pc.
  pose proof (shuffle_perm (routed Vowels text) e2) as Pv. rewrite Ev in Pv.
  pose proof (shuffle_perm (routed_digits text) e3) as Pd. rewrite Ed in Pd.
  simpl in *. unfold flush. simpl.
  destruct (flush_go_fifo text
              (set_digits d (mk text a c v (routed_digits text) true)) [])
    as (out & s' & Heq & Hout & Hdig); simpl.
  - done.
  - intros [| |]; simpl;
      [rewrite Pa|rewrite Pc|rewrite Pv]; by rewrite routed_length.
  - by rewrite Pd, routed_digits_length.
  - intros [| |]; simpl;
      [rewrite Pa|rewrite Pc|rewrite Pv]; by apply routed_good_in.
  - rewrite Pd. apply routed_digits_good.
  - rewrite Heq. simpl. exists (concat out). split; [done|].
    rewrite (feed_spec (concat out) (init true) eq_refl). simpl. split.
    + intros [| |]; simpl; rewrite <-(Hout _); simpl; done.
    + simpl in Hdig. by rewrite <-Hdig.
Qed.

End ScramblerKeeps.

Lemma ascii_faithful (c : char) : (c < 128)%N → faithful c = true.
Proof.
  intros Hc.
  assert (forallb (fun n => faithful (N.of_nat n)) (seq 0 128) = true) as Hall
    by (vm_compute; reflexivity).
  rewrite forallb_forall in Hall.
  rewrite <-(N2Nat.id c). apply Hall, in_seq. lia.
Qed.

Lemma scramble_fixes_literals_witness :
  ∃ out : list char,
    scramble_text (py "Hello, World 42!") zeros = Ok out
    ∧ length out = length (py "Hello, World 42!")
    ∧ ∀ i c, py "Hello, World 42!" !! i = Some c →
        ∃ o, out !! i = Some o
             ∧ if isalpha c then isalpha o = true ∧ isupper o = isupper c
               else if isdigit c then isalpha o = false ∧ isdigit o = true
               else o = c.
Proof. apply scramble_fixes_literals. reflexivity. Defined.

Lemma scramble_permutes_classes_witness :
  ∃ out,
    scramble_text (py "Hello, World 42!") zeros = Ok out
    ∧ (∀ b, Scrambler.get b (Scrambler.feed (Scrambler.init true) out)
            ≡ₚ Scrambler.get b
                 (Scrambler.feed (Scrambler.init true) (py "Hello, World 42!")))
    ∧ Scrambler._digits (Scrambler.feed (Scrambler.init true) out)
      ≡ₚ Scrambler._digits
           (Scrambler.feed (Scrambler.init true) (py "Hello, World 42!")).
Proof. apply scramble_permutes_classes. reflexivity. Defined.

(** ** Consonants and vowels *)

Section ScramblerClasses.
Context `{PyLib}.
Import Scrambler.

(** Replay answers a letter with a letter of the list it pops from. *)
Lemma flush_go_classes buf : ∀ s text,
  _preserve_letter_distribution s = true →
  (∀ b, need b buf = length (get b s)) →
  need_digits buf = length (_digits s) →
  (∀ b, Forall (good_in b) (get b s)) →
  Forall good_digit (_digits s) →
  ∃ out s',
    flush_go buf s text = Ok (text ++ out, s')
    ∧ Forall2 (fun c x =>
                 ∃ o, x = [o]
                      ∧ (isalpha c = true →
                         isalpha o = true
                         ∧ feed_bucket (init true) (lower o)
                           = pop_bucket (init true) c)) buf out.
Proof.
  induction buf as [|c buf IH]; intros s text Hpld Hl Hd Hg Hgd.
  { exists [], s. simpl. rewrite app_nil_r. split; [done|constructor]. }
  cbn [flush_go]. destruct (isalpha c) eqn:Ha.
  - set (b0 := pop_bucket (init true) c).
    pose proof (Hl b0) as Hlen. pose proof (Hg b0) as Hgood.
    simpl in Hlen. rewrite Ha in Hlen. fold b0 in Hlen.
    rewrite bool_decide_eq_true_2 in Hlen by done.
    unfold _pop_letter, _pop_letter_try. rewrite (pop_bucket_pld s c Hpld).
    fold b0. destruct (get b0 s) as [|x l] eqn:Hget; [done|].
    cbn [pop0 mbind result_bind].
    apply Forall_cons in Hgood
      as [(l0 & u & -> & Hu & Hal & Hau & Hll & Hlu & Hb0) Hgood].
    assert (∀ b, get b (set b0 l s)
                 = if decide (b = b0) then l else get b s) as Hgs
      by (intros b; apply get_set).
    destruct (set_fields b0 l s) as (_ & Hsd & Hsp).
    destruct (IH (set b0 l s)
                (text ++ [if isupper c then str_upper [l0] else [l0]]))
      as (out & s' & Heq & Hout).
    { by rewrite Hsp. }
    { intros b. rewrite Hgs. specialize (Hl b). simpl in Hl.
      rewrite Ha in Hl. fold b0 in Hl.
      destruct (decide (b = b0)) as [->|Hb].
      - simpl in Hlen. lia.
      - rewrite bool_decide_eq_false_2 in Hl by done. done. }
    { rewrite Hsd. simpl in Hd. by rewrite Ha in Hd. }
    { intros b. rewrite Hgs. destruct (decide (b = b0)) as [->|Hb];
        [done|apply Hg]. }
    { by rewrite Hsd. }
    exists ((if isupper c then str_upper [l0] else [l0]) :: out), s'.
    split.
    { destruct (isupper c); by rewrite Heq, <-app_assoc. }
    constructor; [|done].
    assert (∃ o, (if isupper c then str_upper [l0] else [l0]) = [o]
                 ∧ isalpha o = true ∧ lower o = [l0]) as (o & -> & Hao & Hlo).
    { destruct (isupper c).
      - exists u. unfold str_upper. simpl. by rewrite Hu.
      - by exists l0. }
    exists o. split; [done|]. intros _. split; [done|]. by rewrite Hlo.
  - destruct (isdigit c) eqn:Hdg.
    + simpl in Hd. rewrite Ha, Hdg in Hd. simpl in Hd.
      destruct (_digits s) as [|x l] eqn:Hdigits; [done|].
      cbn [pop0 mbind result_bind].
      apply Forall_cons in Hgd as [(d & -> & Hsd) Hgd].
      destruct (IH (set_digits l s) (text ++ [[d]])) as (out & s' & Heq & Hout).
      { by simpl. }
      { intros b. specialize (Hl b). simpl in Hl. rewrite Ha in Hl.
        by destruct b. }
      { simpl in *. lia. }
      { intros b. specialize (Hg b). by destruct b. }
      { by simpl. }
      exists ([d] :: out), s'. split.
      { etrans; [exact Heq|]. by rewrite <-app_assoc. }
      constructor; [|done]. exists d. split; [done|]. intros Hc.
      rewrite Ha in Hc. discriminate Hc.
    + destruct (IH s (text ++ [[c]])) as (out & s' & Heq & Hout).
      { done. }
      { intros b. specialize (Hl b). simpl in Hl. by rewrite Ha in Hl. }
      { simpl in Hd. by rewrite Ha, Hdg in Hd. }
      { done. }
      { done. }
      exists ([c] :: out), s'. split.
      { etrans; [exact Heq|]. by rewrite <-app_assoc. }
      constructor; [|done]. exists c. split; [done|]. intros Hc.
      rewrite Ha in Hc. discriminate Hc.
Qed.

Lemma concat_singletons {A} (P : A → char → Prop) (l : list A)
    (out : list str) :
  Forall2 (fun a x => ∃ o, x = [o] ∧ P a o) l out →
  Forall2 P l (concat out).
Proof.
  induction 1 as [|a x l out (o & -> & Ho) _ IH]; [constructor|].
  cbn [concat app]. by constructor.
Qed.

Lemma faithful_bucket c :
  faithful c = true → isalpha c = true →
  feed_bucket (init true) (lower c) = pop_bucket (init true) c.
Proof.
  unfold faithful, regular. intros [Hc _]%andb_prop Ha. rewrite Ha in Hc.
  destruct (lower c) as [|l [|??]]; try done.
  destruct (upper l) as [|u [|??]]; try done.
  apply andb_prop in Hc as [_ Hb]. by apply bool_decide_eq_true_1 in Hb.
Qed.

(** X6: scrambling keeps the class of every letter.  In a text of
    faithful characters each letter is answered by a letter that [feed]
    files on the same list as the original: with the letter distribution
    preserved, a consonant stands where there was a consonant, a vowel
    where there was a vowel, and another letter where there was one. *)
Theorem scramble_keeps_letter_classes (text : list char) (e : entropy) :
  forallb faithful text = true →
  ∃ out : list char,
    scramble_text text e = Ok out
    ∧ ∀ i c, text !! i = Some c → isalpha c = true →
        ∃ o, out !! i = Some o
             ∧ isalpha o = true
             ∧ feed_bucket (init true) (lower o)
               = feed_bucket (init true) (lower c).
Proof.
  intros Hf. pose proof (faithful_regular text Hf) as Hreg.
  unfold scramble_text, scramble.
  rewrite !(feed_spec _ (init true) eq_refl). simpl.
  destruct (shuffle (routed Alpha text) e) as [a e1] eqn:Ea. simpl.
  destruct (shuffle (routed Cons text) e1) as [c e2] eqn:Ec. simpl.
  destruct (shuffle (routed Vowels text) e2) as [v e3] eqn:Ev. simpl.
  destruct (shuffle (routed_digits text) e3) as [d e4] eqn:Ed. simpl.
  pose proof (shuffle_perm (routed Alpha text) e) as Pa. rewrite Ea in Pa.
  pose proof (shuffle_perm (routed Cons text) e1) as Pc. rewrite Ec in Pc.
  pose proof (shuffle_perm (routed Vowels text) e2) as Pv. rewrite Ev in Pv.
  pose proof (shuffle_perm (routed_digits text) e3) as Pd. rewrite Ed in Pd.
  simpl in *. unfold flush. simpl.
  destruct (flush_go_classes text
              (set_digits d (mk text a c v (routed_digits text) true)) [])
    as (out & s' & Heq & Hout); simpl.
  - done.
  - intros [| |]; simpl;
      [rewrite Pa|rewrite Pc|rewrite Pv]; by rewrite routed_length.
  - by rewrite Pd, routed_digits_length.
  - intros [| |]; simpl;
      [rewrite Pa|rewrite Pc|rewrite Pv]; by apply routed_good_in.
  - rewrite Pd. apply routed_digits_good.
  - rewrite Heq. simpl. exists (concat out). split; [done|].
    apply concat_singletons in Hout. intros i x Hx Hax.
    destruct (Forall2_lookup_l _ _ _ _ _ Hout Hx) as (o & Ho & Hox).
    destruct (Hox Hax) as [Hao Hb]. exists o. split; [exact Ho|].
    split; [done|]. rewrite Hb. symmetry. apply faithful_bucket; [|done].
    rewrite forallb_forall in Hf. apply Hf. apply list_elem_of_In.
    by eapply list_elem_of_lookup_2.
Qed.

End ScramblerClasses.

Lemma scramble_keeps_letter_classes_witness :
  ∃ out : list char,
    scramble_text (py "Hello, World 42!") ones = Ok out
    ∧ ∀ i c, py "Hello, World 42!" !! i = Some c → isalpha c = true →
        ∃ o, out !! i = Some o
             ∧ isalpha o = true
             ∧ Scrambler.feed_bucket (Scrambler.init true) (lower o)
               = Scrambler.feed_bucket (Scrambler.init true) (lower c).
Proof. apply scramble_keeps_letter_classes. reflexivity. Defined.

(** ** Rebuilt tags *)

Section TagFacts.
Context `{PyLib}.
Import HTMLScrambler.

Lemma handle_xhtml s ev e s' e' :
  handle s ev e = Ok (s', e') → _is_xhtml s = true → _is_xhtml s' = true.
Proof.
  destruct ev; simpl;
    unfold handle_starttag, handle_startendtag, handle_endtag, handle_data,
      handle_entityref, handle_charref, handle_comment, handle_decl;
    intros Hh Hx;
    repeat match type of Hh with
      | context [if ?b then _ else _] => destruct b eqn:?; simpl in Hh
      | context [_build_starttag ?s ?t ?a ?i ?e] =>
          destruct (_build_starttag s t a i e) as [[??]|]; simpl in Hh
      end;
    by simplify_eq.
Qed.

Lemma scramble_xhtml s e doc s' e' :
  scramble s e = Ok (doc, s', e') → _is_xhtml s' = _is_xhtml s.
Proof.
  unfold scramble. intros Hs.
  destruct (Scrambler.scramble _ e) as [[[??]?]|]; simpl in Hs; [|done].
  destruct (scramble_go _ _ _ _) as [[??]|]; simpl in Hs; by simplify_eq.
Qed.

Lemma xhtml_stays s s' :
  rtc step s s' → _is_xhtml s = true → _is_xhtml s' = true.
Proof.
  induction 1 as [|s1 s2 s3 H12 _ IH]; [done|].
  intros Hx. apply IH. destruct H12 as [????? Hh|????? Hs].
  - by eapply handle_xhtml.
  - by rewrite (scramble_xhtml _ _ _ _ _ Hs).
Qed.

(** X7: once a declaration that contains [//DTD XHTML ] has been handled,
    the page is XHTML in every state the instance reaches afterwards:
    no handler and no call of [scramble] turns the flag off again. *)
Theorem xhtml_is_never_cleared (s s' : t) (decl : str) :
  str_in (py "//DTD XHTML ") decl = true →
  rtc step (handle_decl s decl) s' → _is_xhtml s' = true.
Proof.
  intros Hd Hr. apply (xhtml_stays _ _ Hr).
  unfold handle_decl. by rewrite Hd.
Qed.

Lemma build_attrs_extends s tag a : ∀ td e td' e',
  build_attrs s tag a td e = Ok (td', e') → ∃ ext, td' = td ++ ext.
Proof.
  induction a as [|[attr value] a IH]; intros td e td' e' Hb.
  { simpl in Hb. simplify_eq. exists []. by rewrite app_nil_r. }
  cbn [build_attrs] in Hb. destruct value as [v|].
  - destruct (_process_attr_value s tag attr v e) as [[pv e1]|]; [|done].
    cbn [mbind result_bind] in Hb. apply IH in Hb as [ext ->].
    eexists. by rewrite <-!app_assoc.
  - destruct (_is_xhtml s); apply IH in Hb as [ext ->]; eexists;
      by rewrite <-!app_assoc.
Qed.

(** The text of a rebuilt start tag. *)
Lemma build_starttag_form s tag a is_empty e m e' :
  _build_starttag s tag a is_empty e = Ok (m, e') →
  ∃ td e0,
    build_attrs s tag a [py "<"; tag] e = Ok (td, e0)
    ∧ m = concat td
          ++ (if bool_decide (tag = py "input") then
                py " disabled"
                ++ (if _is_xhtml s
                    then py "=" ++ dquote ++ py "disabled" ++ dquote else [])
              else [])
          ++ (if _is_xhtml s
                 && (is_empty || bool_decide (tag ∈ _VOID_ELEMENTS))
              then py " />" else py ">").
Proof.
  unfold _build_starttag. intros Hb.
  destruct (build_attrs s tag a [py "<"; tag] e) as [[td e1]|]; [|done].
  cbn [mbind result_bind] in Hb. exists td, e1. split; [done|].
  assert (∀ x y : str * entropy, Ok x = Ok y → x.1 = y.1) as Hfst
    by (intros x y Hxy; congruence).
  apply Hfst in Hb. cbn [fst] in Hb. subst m.
  destruct (bool_decide (tag = py "input")), (_is_xhtml s),
    (is_empty || bool_decide (tag ∈ _VOID_ELEMENTS));
    cbn [andb]; rewrite ?concat_app; cbn [concat];
    by rewrite ?app_nil_r, <-?app_assoc.
Qed.

(** X8: a rebuilt start tag opens with [<] and the tag name and closes
    with [ />] when the page is XHTML and the tag is self-closing or a void
    element, with [>] otherwise. *)
Theorem start_tag_closing (s : t) (tag : str) (a : attrs) (is_empty : bool)
    (e e' : entropy) (m : str) :
  _build_starttag s tag a is_empty e = Ok (m, e') →
  ∃ mid,
    m = py "<" ++ tag ++ mid
        ++ (if _is_xhtml s && (is_empty || bool_decide (tag ∈ _VOID_ELEMENTS))
            then py " />" else py ">").
Proof.
  intros (td & e0 & Ha & ->)%build_starttag_form.
  apply build_attrs_extends in Ha as [ext ->].
  exists (concat ext
          ++ (if bool_decide (tag = py "input") then
                py " disabled"
                ++ (if _is_xhtml s
                    then py "=" ++ dquote ++ py "disabled" ++ dquote else [])
              else [])).
  rewrite concat_app. cbn [concat].
  rewrite app_nil_r, <-!app_assoc. reflexivity.
Qed.

(** X9: whatever its attributes, a rebuilt [input] tag ends with the
    attribute [disabled]: [ disabled>] in HTML and
    [ disabled="disabled" />] in XHTML. *)
Theorem input_is_disabled (s : t) (a : attrs) (is_empty : bool)
    (e e' : entropy) (m : str) :
  _build_starttag s (py "input") a is_empty e = Ok (m, e') →
  ∃ pre,
    m = pre ++ (if _is_xhtml s
                then py " disabled=" ++ dquote ++ py "disabled" ++ dquote
                     ++ py " />"
                else py " disabled>").
Proof.
  intros (td & e0 & _ & ->)%build_starttag_form.
  exists (concat td). f_equal.
  assert (bool_decide (py "input" ∈ _VOID_ELEMENTS) = true) as ->
    by (apply bool_decide_eq_true_2; vm_compute; set_solver).
  rewrite bool_decide_eq_true_2, orb_true_r, andb_true_r by done.
  by destruct (_is_xhtml s).
Qed.

(** *** Attribute values *)

Lemma escape_char_safe c x :
  x ∈ escape_char c → x ∉ [34%N; 60%N; 62%N; 39%N].
Proof.
  unfold escape_char. repeat case_bool_decide; intros Hx Hbad.
  1-5: vm_compute in Hx; set_unfold in Hx; set_unfold in Hbad;
       destruct Hbad as [->|[->|[->|[->|[]]]]];
       repeat (destruct Hx as [Hx|Hx]; [discriminate Hx|]); done.
  apply list_elem_of_singleton in Hx as ->.
  set_unfold in Hbad. destruct Hbad as [->|[->|[->|[->|[]]]]]; done.
Qed.

Lemma html_escape_safe s x :
  x ∈ html_escape s → x ∉ [34%N; 60%N; 62%N; 39%N].
Proof.
  unfold html_escape. intros (c & Hx & _)%list_elem_of_bind.
  by eapply escape_char_safe.
Qed.

(** X10: whatever the attribute and its value, the processed value holds no
    double quote, no single quote, no [<] and no [>]: a value cannot end the
    quoted attribute or the tag it is written into. *)
Theorem attribute_value_is_quoted_safely (s : t) (tag attr value : str)
    (e e' : entropy) (pv : str) :
  _process_attr_value s tag attr value e = Ok (pv, e') →
  Forall (fun x => x ∉ [34%N; 60%N; 62%N; 39%N]) pv.
Proof.
  unfold _process_attr_value. intros Hp.
  match type of Hp with
  | ?r ≫= _ = _ => destruct r as [[v e1]|]; simpl in Hp; [|done]
  end.
  simplify_eq. apply Forall_forall. intros x. apply html_escape_safe.
Qed.

(** X11: the value of an attribute that is none of [href], [src],
    [action], [srcset], [alt], [placeholder], [title] and [value] is only
    escaped: processing it neither raises nor draws. *)
Theorem other_attributes_pass_through (s : t) (tag attr value : str)
    (e : entropy) :
  attr ∉ [py "href"; py "src"; py "action"; py "srcset"; py "alt";
          py "placeholder"; py "title"; py "value"] →
  _process_attr_value s tag attr value e = Ok (html_escape value, e).
Proof.
  intros Hattr. unfold _process_attr_value.
  assert (bool_decide (attr = py "href") = false
          ∧ bool_decide (attr = py "src") = false
          ∧ bool_decide (attr ∈ [py "action"; py "href"; py "src"]) = false
          ∧ bool_decide (attr = py "srcset") = false
          ∧ bool_decide (attr ∈ [py "alt"; py "placeholder"; py "title";
                                 py "value"]) = false)
    as (-> & -> & -> & -> & ->).
  { rewrite !not_elem_of_cons in Hattr.
    repeat split; apply bool_decide_eq_false_2;
      rewrite ?elem_of_cons, ?elem_of_nil; tauto. }
  by rewrite !andb_false_r.
Qed.

Lemma quote_safe_plain b : quote_safe b = true → special b = false.
Proof.
  intros Hq. destruct (special b) eqn:Hs; [|done].
  apply bool_decide_eq_true_1 in Hs. vm_compute in Hs. set_unfold in Hs.
  destruct Hs as [->|[->|[->|[->|[->|[]]]]]]; vm_compute in Hq; done.
Qed.

Lemma hex_digit_plain d : (d < 16)%N → special (digit_char d) = false.
Proof.
  intros Hd.
  assert (forallb (fun n => negb (special (digit_char (N.of_nat n))))
                  (seq 0 16) = true) as Hall by (vm_compute; reflexivity).
  rewrite forallb_forall in Hall.
  rewrite <-(N2Nat.id d). apply negb_true_iff, Hall, in_seq. lia.
Qed.

Lemma quote_byte_plain b :
  forallb (fun c => negb (special c)) (quote_byte b) = true.
Proof.
  unfold quote_byte. destruct (quote_safe b) eqn:Hq; simpl.
  - by rewrite (quote_safe_plain b Hq).
  - rewrite !hex_digit_plain; [done|apply N.mod_lt; lia..].
Qed.

Lemma quote_plain s t :
  quote s = Ok t → forallb (fun c => negb (special c)) t = true.
Proof.
  unfold quote. destruct (utf8_encode s) as [bs|]; simpl; [|done].
  intros Ht. simplify_eq. induction bs as [|b bs IH]; [done|].
  rewrite bind_cons, forallb_app, quote_byte_plain. done.
Qed.

(** X12: the [href] of an [a] tag and the [src] of a [frame] or [iframe]
    tag become [?url=] (in honeypot mode [?honeypot=1&amp;url=], the
    ampersand escaped) followed by the quoted absolute URL as it is: the
    quoted URL holds no character that escaping would touch. *)
Theorem link_is_proxied (s : t) (tag attr value joined target : str)
    (e : entropy) :
  tag = py "a" ∧ attr = py "href"
  ∨ tag ∈ [py "frame"; py "iframe"] ∧ attr = py "src" →
  urljoin (_base_url s) value = Ok joined →
  quote joined = Ok target →
  _process_attr_value s tag attr value e
  = Ok ((if _is_honeypot s then py "?honeypot=1&amp;url=" else py "?url=")
        ++ target, e)
  ∧ forallb (fun c => negb (special c)) target = true.
Proof.
  intros Hlink Hj Hq. pose proof (quote_plain _ _ Hq) as Hplain.
  split; [|done]. unfold _process_attr_value.
  assert (bool_decide (tag = py "a") && bool_decide (attr = py "href")
          || bool_decide (tag ∈ [py "frame"; py "iframe"])
             && bool_decide (attr = py "src") = true) as ->.
  { destruct Hlink as [[-> ->]|[Ht ->]].
    - done.
    - rewrite (bool_decide_eq_true_2 _ Ht). simpl. apply orb_true_r. }
  rewrite Hj. cbn [mbind result_bind]. rewrite Hq. cbn [mbind result_bind].
  destruct (_is_honeypot s); cbn [mbind result_bind]; do 2 f_equal;
    unfold html_escape; rewrite bind_app; f_equal;
    by apply (escape_plain target).
Qed.

End TagFacts.

Lemma xhtml_is_never_cleared_witness :
  HTMLScrambler._is_xhtml
    (HTMLScrambler.handle_endtag
       (HTMLScrambler.handle_decl
          (HTMLScrambler.init (py "https://example.com/") false None None true)
          (py "DOCTYPE html PUBLIC -//W3C//DTD XHTML 1.0 Strict//EN"))
       (py "style")) = true.
Proof.
  apply (xhtml_is_never_cleared
           (HTMLScrambler.init (py "https://example.com/") false None None true)
           _ (py "DOCTYPE html PUBLIC -//W3C//DTD XHTML 1.0 Strict//EN")).
  - reflexivity.
  - eapply rtc_l;
      [eapply (step_handle _ (HTMLScrambler.EndTag (py "style")) zeros);
       reflexivity|].
    apply rtc_refl.
Defined.

Lemma start_tag_closing_witness :
  ∃ mid,
    py "<br class=" ++ HTMLScrambler.dquote ++ py "x" ++ HTMLScrambler.dquote
    ++ py " />"
    = py "<" ++ py "br" ++ mid
      ++ (if HTMLScrambler._is_xhtml
               (HTMLScrambler.handle_decl
                  (HTMLScrambler.init (py "https://example.com/") false None
                     None true)
                  (py "DOCTYPE html PUBLIC -//W3C//DTD XHTML 1.0 Strict//EN"))
             && (false || bool_decide (py "br" ∈ HTMLScrambler._VOID_ELEMENTS))
          then py " />" else py ">").
Proof.
  apply (start_tag_closing _ (py "br") [(py "class", Some (py "x"))] false
           zeros zeros).
  reflexivity.
Defined.

Lemma input_is_disabled_witness :
  ∃ pre,
    py "<input type=" ++ HTMLScrambler.dquote ++ py "text"
    ++ HTMLScrambler.dquote ++ py " required disabled>"
    = pre
      ++ (if HTMLScrambler._is_xhtml
               (HTMLScrambler.init (py "https://example.com/") false None None
                  true)
          then py " disabled=" ++ HTMLScrambler.dquote ++ py "disabled"
               ++ HTMLScrambler.dquote ++ py " />"
          else py " disabled>").
Proof.
  apply (input_is_disabled _
           [(py "type", Some (py "text")); (py "required", None)] false
           zeros zeros).
  reflexivity.
Defined.

Lemma attribute_value_is_quoted_safely_witness :
  Forall (fun x => x ∉ [34%N; 60%N; 62%N; 39%N])
         (py "a&lt;b&gt;&#x27;c&#x27;").
Proof.
  apply (attribute_value_is_quoted_safely
           (HTMLScrambler.init (py "https://example.com/") false None None true)
           (py "p") (py "data-x") (py "a<b>'c'") zeros zeros).
  reflexivity.
Defined.

Lemma other_attributes_pass_through_witness :
  HTMLScrambler._process_attr_value
    (HTMLScrambler.init (py "https://example.com/") false None None true)
    (py "p") (py "class") (py "a<b") ones
  = Ok (html_escape (py "a<b"), ones).
Proof.
  apply other_attributes_pass_through.
  apply (bool_decide_eq_true_1 _). by vm_compute.
Defined.

Lemma link_is_proxied_witness :
  HTMLScrambler._process_attr_value
    (HTMLScrambler.init (py "https://example.com/") true None None true)
    (py "iframe") (py "src") (py "/page") zeros
  = Ok ((if HTMLScrambler._is_honeypot
              (HTMLScrambler.init (py "https://example.com/") true None None
                 true)
         then py "?honeypot=1&amp;url=" else py "?url=")
        ++ py "https%3A//example.com/page", zeros)
  ∧ forallb (fun c => negb (special c)) (py "https%3A//example.com/page")
    = true.
Proof.
  apply (link_is_proxied _ _ _ _ (py "https://example.com/page")).
  - right. split; [|reflexivity].
    apply (bool_decide_eq_true_1 _). by vm_compute.
  - reflexivity.
  - reflexivity.
Defined.

(** ** Script and style elements *)

Section Elements.
Context `{PyLib}.
Import HTMLScrambler.

Lemma feed_app page1 : ∀ page2 s e,
  feed s (page1 ++ page2) e = feed s page1 e ≫= fun '(s1, e1) => feed s1 page2 e1.
Proof.
  induction page1 as [|ev page1 IH]; intros page2 s e; [done|].
  cbn [app feed]. destruct (handle s ev e) as [[s1 e1]|]; [|done].
  cbn [mbind result_bind]. apply IH.
Qed.

(** Inside a suppressed script every run of data leaves one comment. *)
Lemma suppressed_data ds : ∀ s e,
  _is_script s = true → _suppress_scripts s = true →
  ∃ s1,
    feed s (Data <$> ds) e = Ok (s1, e)
    ∧ _html s1 = _html s ++ replicate (length ds) (py "<!-- script removed -->")
    ∧ _buf s1 = _buf s ++ replicate (length ds) marker
    ∧ _is_script s1 = true ∧ _suppress_scripts s1 = true
    ∧ _is_scrambling s1 = _is_scrambling s.
Proof.
  induction ds as [|d ds IH]; intros s e Hs Hsup.
  { exists s. by rewrite !app_nil_r. }
  cbn [fmap list_fmap feed handle mbind result_bind].
  destruct (IH (handle_data s d) e) as (s1 & -> & Hh & Hb & ? & ? & Hscr).
  { unfold handle_data. by rewrite Hs, Hsup. }
  { unfold handle_data. by rewrite Hs, Hsup. }
  exists s1. split; [done|]. unfold handle_data in Hh, Hb, Hscr.
  rewrite Hs, Hsup in Hh, Hb, Hscr. cbn [andb] in Hh, Hb, Hscr.
  rewrite Hh, Hb, Hscr. cbn [length replicate].
  unfold emit. cbn [_html _buf set_buf set_html _is_scrambling].
  by rewrite <-!app_assoc.
Qed.

(** X13: with script suppression on, a [script] element leaves nothing in
    the page but one comment [<!-- script removed -->] for each run of its
    data: neither its tags, its attributes nor its text reach the output,
    handling it does not raise and draws nothing, and scrambling is as it
    was before the element. *)
Theorem suppressed_script_leaves_comments (s : t) (a : attrs) (ds : list str)
    (e : entropy) :
  _suppress_scripts s = true →
  ∃ s1,
    feed s (StartTag (py "script") a :: (Data <$> ds) ++ [EndTag (py "script")]) e
    = Ok (s1, e)
    ∧ _html s1 = _html s ++ replicate (length ds) (py "<!-- script removed -->")
    ∧ _buf s1 = _buf s ++ replicate (length ds) marker
    ∧ _is_script s1 = false
    ∧ _is_scrambling s1 = _is_scrambling s.
Proof.
  intros Hsup. cbn [feed handle]. unfold handle_starttag.
  rewrite bool_decide_eq_true_2 by done.
  cbn [_suppress_scripts set_is_script]. rewrite Hsup.
  cbn [mbind result_bind]. rewrite feed_app.
  edestruct (suppressed_data ds) as (s1 & -> & Hh & Hb & Hs1 & Hsup1 & Hscr);
    [| |cbn [mbind result_bind feed handle]].
  { done. }
  { exact Hsup. }
  exists (handle_endtag s1 (py "script")). split; [done|].
  unfold handle_endtag. rewrite bool_decide_eq_true_2 by done.
  cbn [_suppress_scripts set_is_script]. rewrite Hsup1.
  cbn [_html _buf _is_script _is_scrambling set_is_script] in *.
  by rewrite Hh, Hb, Hscr.
Qed.

Lemma build_attrs_scrambling b s tag a : ∀ td e,
  build_attrs (set_is_scrambling b s) tag a td e = build_attrs s tag a td e.
Proof.
  induction a as [|[attr [v|]] a IH]; intros td e; [done| |].
  - cbn [build_attrs].
    change (_process_attr_value (set_is_scrambling b s) tag attr v e)
      with (_process_attr_value s tag attr v e).
    destruct (_process_attr_value s tag attr v e) as [[pv e1]|]; [|done].
    cbn [mbind result_bind]. apply IH.
  - cbn [build_attrs]. change (_is_xhtml (set_is_scrambling b s)) with (_is_xhtml s).
    destruct (_is_xhtml s); apply IH.
Qed.

Lemma build_starttag_scrambling b s tag a is_empty e :
  _build_starttag (set_is_scrambling b s) tag a is_empty e
  = _build_starttag s tag a is_empty e.
Proof.
  unfold _build_starttag. by rewrite build_attrs_scrambling.
Qed.

(** Outside scrambling every run of data goes to the queue as it is. *)
Lemma verbatim_data ds : ∀ s e,
  _is_script s && _suppress_scripts s = false → _is_scrambling s = false →
  ∃ s1,
    feed s (Data <$> ds) e = Ok (s1, e)
    ∧ _html s1 = _html s ++ ds
    ∧ _buf s1 = _buf s ++ replicate (length ds) marker
    ∧ _is_script s1 = _is_script s.
Proof.
  induction ds as [|d ds IH]; intros s e Hs Hscr.
  { exists s. by rewrite !app_nil_r. }
  cbn [fmap list_fmap feed handle mbind result_bind].
  destruct (IH (handle_data s d) e) as (s1 & -> & Hh & Hb & Hsc).
  { unfold handle_data. by rewrite Hs, Hscr. }
  { unfold handle_data. by rewrite Hs, Hscr. }
  exists s1. split; [done|]. unfold handle_data in Hh, Hb, Hsc.
  rewrite Hs, Hscr in Hh, Hb, Hsc.
  rewrite Hh, Hb, Hsc. cbn [length replicate].
  unfold emit. cbn [_html _buf set_buf set_html _is_script].
  by rewrite <-!app_assoc.
Qed.

(** X14: the text of a [style] element is not scrambled.  Outside a
    suppressed script, every run of data between [<style>] and [</style>]
    goes to the markup queue as it is, behind the rebuilt start tag and
    before the end tag, and scrambling is on after the element. *)
Theorem style_is_kept_verbatim (s s1 : t) (a : attrs) (ds : list str)
    (e e1 : entropy) :
  _is_script s && _suppress_scripts s = false →
  feed s (StartTag (py "style") a :: (Data <$> ds) ++ [EndTag (py "style")]) e
  = Ok (s1, e1) →
  ∃ m,
    _build_starttag s (py "style") a false e = Ok (m, e1)
    ∧ _html s1 = _html s ++ m :: ds ++ [py "</style>"]
    ∧ _buf s1 = _buf s ++ replicate (length ds + 2) marker
    ∧ _is_scrambling s1 = true.
Proof.
  intros Hs. cbn [feed handle]. unfold handle_starttag.
  rewrite bool_decide_eq_false_2 by done.
  rewrite bool_decide_eq_true_2 by (vm_compute; set_solver).
  rewrite build_starttag_scrambling.
  destruct (_build_starttag s (py "style") a false e) as [[m e0]|]; [|done].
  cbn [mbind result_bind]. rewrite feed_app.
  edestruct (verbatim_data ds (emit m (set_is_scrambling false s)) e0)
    as (s2 & -> & Hh & Hb & Hsc); [done|done|].
  cbn [mbind result_bind feed handle]. intros Heq.
  assert (∀ x y : t * entropy, Ok x = Ok y → x = y) as Hinj
    by (intros x y Hxy; congruence).
  apply Hinj in Heq. apply (f_equal fst) in Heq as Hs1.
  apply (f_equal snd) in Heq as He1. cbn [fst snd] in Hs1, He1. subst s1 e1.
  exists m. split; [done|]. unfold handle_endtag.
  rewrite bool_decide_eq_false_2 by done.
  rewrite bool_decide_eq_true_2 by (vm_compute; set_solver).
  unfold emit at 1 2 3. cbn [_html _buf _is_scrambling set_buf set_html set_is_scrambling].
  rewrite Hh, Hb. unfold emit.
  cbn [_html _buf _is_scrambling set_buf set_html set_is_scrambling].
  rewrite <-!app_assoc. cbn [app].
  split; [reflexivity|]. split; [|done]. f_equal.
  generalize marker (length ds). intros x n. rewrite Nat.add_comm.
  induction n as [|n IH]; [done|].
  cbn [replicate app Nat.add] in *. by rewrite IH.
Qed.

End Elements.

Lemma suppressed_script_leaves_comments_witness :
  ∃ s1,
    HTMLScrambler.feed
      (HTMLScrambler.init (py "https://example.com/") false None None true)
      (HTMLScrambler.StartTag (py "script") [(py "src", Some (py "x.js"))]
       :: (HTMLScrambler.Data <$> [py "alert(1)"])
          ++ [HTMLScrambler.EndTag (py "script")]) ones
    = Ok (s1, ones)
    ∧ HTMLScrambler._html s1
      = HTMLScrambler._html
          (HTMLScrambler.init (py "https://example.com/") false None None true)
        ++ replicate (length [py "alert(1)"]) (py "<!-- script removed -->")
    ∧ HTMLScrambler._buf s1
      = HTMLScrambler._buf
          (HTMLScrambler.init (py "https://example.com/") false None None true)
        ++ replicate (length [py "alert(1)"]) HTMLScrambler.marker
    ∧ HTMLScrambler._is_script s1 = false
    ∧ HTMLScrambler._is_scrambling s1
      = HTMLScrambler._is_scrambling
          (HTMLScrambler.init (py "https://example.com/") false None None true).
Proof. apply suppressed_script_leaves_comments. reflexivity. Defined.

Lemma style_is_kept_verbatim_witness :
  ∃ m,
    HTMLScrambler._build_starttag
      (HTMLScrambler.init (py "https://example.com/") false None None true)
      (py "style") [] false ones
    = Ok (m, ones)
    ∧ [py "<style>"; py "p { color: red }"; py "</style>"]
      = [] ++ m :: [py "p { color: red }"] ++ [py "</style>"]
    ∧ [HTMLScrambler.marker; HTMLScrambler.marker; HTMLScrambler.marker]
      = [] ++ replicate (length [py "p { color: red }"] + 2)
                HTMLScrambler.marker
    ∧ true = true.
Proof.
  apply (style_is_kept_verbatim
           (HTMLScrambler.init (py "https://example.com/") false None None true)
           (HTMLScrambler.mk (py "https://example.com/") false None None true
              [HTMLScrambler.marker; HTMLScrambler.marker; HTMLScrambler.marker]
              [py "<style>"; py "p { color: red }"; py "</style>"]
              true false false)
           [] [py "p { color: red }"] ones ones).
  - reflexivity.
  - reflexivity.
Defined.

(** ** Reassembly of a page *)

Section Reassembly.
Context `{PyLib}.
Import HTMLScrambler.

Lemma split_go_text x : ∀ rest cur,
  lt_free x = true →
  split_go marker (x ++ rest) cur 0 = split_go marker rest (cur ++ x) 0.
Proof.
  induction x as [|c x IH]; intros rest cur Hx.
  { by rewrite app_nil_r. }
  cbn [lt_free forallb] in Hx. apply andb_prop in Hx as [Hc Hx].
  apply negb_true_iff, bool_decide_eq_false_1 in Hc.
  rewrite <-app_comm_cons. cbn [split_go].
  assert (startswith marker (c :: x ++ rest) = false) as ->.
  { change marker with [60%N; 62%N]. cbn [startswith].
    rewrite bool_decide_eq_false_2; [done|congruence]. }
  rewrite IH by done. by rewrite <-app_assoc.
Qed.

Lemma split_go_marker rest cur :
  split_go marker (marker ++ rest) cur 0 = cur :: split_go marker rest [] 0.
Proof. reflexivity. Qed.

Lemma lt_free_marker x : lt_free x = true → x ≠ marker.
Proof. by intros Hx ->. Qed.

(** Splitting the joined buffer at the markers gives the text runs between
    the markers the handlers pushed, when no text holds a [<]. *)
Lemma split_runs buf : ∀ cur,
  Forall (fun x => x = marker ∨ lt_free x = true) buf →
  split_go marker (concat buf) cur 0 = runs buf cur.
Proof.
  induction buf as [|x buf IH]; intros cur Hb; [done|].
  apply Forall_cons in Hb as [[->|Hx] Hb]; cbn [concat runs].
  - rewrite bool_decide_eq_true_2 by done.
    rewrite split_go_marker. f_equal. by apply IH.
  - rewrite bool_decide_eq_false_2 by (by apply lt_free_marker).
    rewrite split_go_text by done. by apply IH.
Qed.

Lemma runs_length buf : ∀ cur, length (runs buf cur) = S (count_markers buf).
Proof.
  induction buf as [|x buf IH]; intros cur; [done|].
  cbn [runs count_markers]. destruct (bool_decide (x = marker)).
  - cbn [length]. by rewrite IH.
  - by rewrite IH.
Qed.

Lemma count_markers_app a b :
  count_markers (a ++ b) = count_markers a + count_markers b.
Proof.
  induction a as [|x a IH]; [done|].
  cbn [app count_markers]. rewrite IH. lia.
Qed.

Lemma emit_aligned m s : aligned_with s → aligned_with (emit m s).
Proof.
  intros [Hb Hc]. split; unfold emit; cbn [_buf _html set_buf set_html].
  - apply Forall_app. split; [done|]. constructor; [by left|constructor].
  - rewrite count_markers_app, length_app, Hc. cbn [count_markers length].
    by rewrite bool_decide_eq_true_2.
Qed.

Lemma handle_aligned s ev e s' e' :
  handle s ev e = Ok (s', e') → plain_event ev = true →
  aligned_with s → aligned_with s'.
Proof.
  assert (∀ b s0, aligned_with s0 → aligned_with (set_is_scrambling b s0)) as Hscr
    by (intros b s0 Hs0; exact Hs0).
  assert (∀ b s0, aligned_with s0 → aligned_with (set_is_script b s0)) as Hsc
    by (intros b s0 Hs0; exact Hs0).
  assert (∀ b s0, aligned_with s0 → aligned_with (set_is_xhtml b s0)) as Hx
    by (intros b s0 Hs0; exact Hs0).
  destruct ev; cbn [handle plain_event];
    unfold handle_starttag, handle_startendtag, handle_endtag, handle_data,
      handle_entityref, handle_charref, handle_comment, handle_decl;
    intros Hh Hplain Hs;
    repeat match type of Hh with
      | context [if ?b then _ else _] => destruct b eqn:?
      | context [_build_starttag ?s ?t ?a ?i ?e] =>
          destruct (_build_starttag s t a i e) as [[??]|];
          cbn [mbind result_bind] in Hh
      end;
    try discriminate Hh;
    (assert (∀ x y : t * entropy, Ok x = Ok y → x.1 = y.1) as Hfst
       by (intros x y Hxy; congruence));
    apply Hfst in Hh; cbn [fst] in Hh; subst s';
    auto using emit_aligned.
  destruct Hs as [Hb Hc]. split; cbn [_buf _html set_buf].
  - apply Forall_app. split; [done|]. constructor; [by right|constructor].
  - rewrite count_markers_app, <-Hc. cbn [count_markers].
    rewrite bool_decide_eq_false_2 by (by apply lt_free_marker). lia.
Qed.

Lemma feed_aligned page : ∀ s e s' e',
  feed s page e = Ok (s', e') → forallb plain_event page = true →
  aligned_with s → aligned_with s'.
Proof.
  induction page as [|ev page IH]; intros s e s' e' Hfeed Hplain Hs.
  { cbn [feed] in Hfeed. by simplify_eq. }
  cbn [forallb] in Hplain. apply andb_prop in Hplain as [Hev Hpage].
  cbn [feed] in Hfeed.
  destruct (handle s ev e) as [[s1 e1]|] eqn:Hh; [|done].
  cbn [mbind result_bind] in Hfeed.
  eapply IH; [exact Hfeed|done|]. by eapply handle_aligned.
Qed.

(** X15: a page is reassembled in order.  For a page of regular characters
    whose text runs hold no [<], with no encoding conversion configured,
    [scramble] does not raise; its document is the markup queue woven, entry
    by entry and as it is, between pieces that have the shape of the text
    between the markers; there is one piece more than queue entries, so
    every entry is used and follows its text; and the call empties the
    queue but keeps the text buffer. *)
Theorem page_is_reassembled (base : str) (hp : bool) (src tgt : option str)
    (sup : bool) (page : list event) (e e1 : entropy) (s1 : t) :
  markup_literal = true →
  forallb regular_event page = true →
  forallb plain_event page = true →
  truthy src && truthy tgt = false →
  feed (init base hp src tgt sup) page e = Ok (s1, e1) →
  ∃ pieces doc s2 e2,
    scramble s1 e1 = Ok (doc, s2, e2)
    ∧ Forall2 same_shape pieces (runs (_buf s1) [])
    ∧ length pieces = S (length (_html s1))
    ∧ doc = concat (weave pieces (_html s1))
    ∧ _html s2 = [] ∧ _buf s2 = _buf s1.
Proof.
  intros Hm Hreg Hplain Hconv Hfeed.
  destruct (feed_buf Hm _ _ _ _ _ Hfeed Hreg) as (Hbuf & Hs & Ht);
    [constructor|].
  assert (aligned_with s1) as [Hal Hcount].
  { eapply feed_aligned; [exact Hfeed|done|]. split; [constructor|done]. }
  cbn [init _source_encoding _target_encoding] in Hs, Ht.
  apply concat_regular in Hbuf.
  destruct (scramble_shape _ e1 Hbuf) as (out & sc & e2 & Hout & Hshape).
  assert (Forall2 same_shape (str_split marker out) (runs (_buf s1) []))
    as Hpieces.
  { rewrite <-(split_runs (_buf s1) [] Hal). by apply split_go_shape. }
  assert (length (str_split marker out) = S (length (_html s1))) as Hlen.
  { by rewrite (Forall2_length _ _ _ Hpieces), runs_length, Hcount. }
  exists (str_split marker out), (concat (weave (str_split marker out) (_html s1))),
    (set_html [] s1), e2.
  split; [|done]. unfold scramble. rewrite Hout. cbn [mbind result_bind].
  rewrite (scramble_go_weave s1 (fun _ _ => True) _ (str_split marker out)).
  - cbn [mbind result_bind]. rewrite drop_ge by lia. done.
  - rewrite Hs, Ht, Hconv. apply Forall_Forall2_diag, Forall_forall. done.
Qed.

End Reassembly.

Lemma page_is_reassembled_witness :
  ∃ pieces doc s2 e2,
    HTMLScrambler.scramble
      (HTMLScrambler.mk (py "https://example.com/") false None None true
         [HTMLScrambler.marker; HTMLScrambler.marker; py "Hello, World 42!";
          HTMLScrambler.marker; py "Bye"; HTMLScrambler.marker]
         [py "<!DOCTYPE html>"; py "<p>"; py "<br>"; py "</p>"]
         true false false) zeros
    = Ok (doc, s2, e2)
    ∧ Forall2 same_shape pieces
        (runs [HTMLScrambler.marker; HTMLScrambler.marker;
               py "Hello, World 42!"; HTMLScrambler.marker; py "Bye";
               HTMLScrambler.marker] [])
    ∧ length pieces
      = S (length [py "<!DOCTYPE html>"; py "<p>"; py "<br>"; py "</p>"])
    ∧ doc = concat (weave pieces
                      [py "<!DOCTYPE html>"; py "<p>"; py "<br>"; py "</p>"])
    ∧ HTMLScrambler._html s2 = []
    ∧ HTMLScrambler._buf s2
      = [HTMLScrambler.marker; HTMLScrambler.marker; py "Hello, World 42!";
         HTMLScrambler.marker; py "Bye"; HTMLScrambler.marker].
Proof.
  apply (page_is_reassembled (py "https://example.com/") false None None true
           [HTMLScrambler.Decl (py "DOCTYPE html");
            HTMLScrambler.StartTag (py "p") [];
            HTMLScrambler.Data (py "Hello, World 42!");
            HTMLScrambler.StartTag (py "br") [];
            HTMLScrambler.Data (py "Bye");
            HTMLScrambler.EndTag (py "p")] zeros zeros
           (HTMLScrambler.mk (py "https://example.com/") false None None true
              [HTMLScrambler.marker; HTMLScrambler.marker;
               py "Hello, World 42!"; HTMLScrambler.marker; py "Bye";
               HTMLScrambler.marker]
              [py "<!DOCTYPE html>"; py "<p>"; py "<br>"; py "</p>"]
              true false false)); reflexivity.
Defined.

(** ** The CGI front end *)

Section MainFacts.
Context `{PyLib}.
Variable urlparse : str → CGI.parse_outcome.
Variable scramble : str → bool → CGI.fetch_outcome.
Import CGI.

Lemma error_no_fetch code message u hp :
  Scramble u hp ∉ _scrambler_error code message.
Proof.
  unfold _scrambler_error. rewrite !elem_of_cons, elem_of_nil.
  intros [?|[?|[?|[?|[]]]]]; discriminate.
Qed.

(** The host itself is always on the allowlist. *)
Lemma host_allowed env : Some (HTTP_HOST env) ∈ Some <$> ALLOWED_DOMAINS env.
Proof. unfold ALLOWED_DOMAINS. rewrite fmap_cons. apply elem_of_cons. by left. Qed.

Lemma dispatch_fetch env f url p u hp :
  Scramble u hp ∈ dispatch scramble env f url p →
  u = url ∧ hp = HTMLScrambler.truthy (form_honeypot f)
  ∧ (url = DEFAULT_URL env
     ∨ (if hp then hostname p = Some (HTTP_HOST env)
        else hostname p ∈ Some <$> ALLOWED_DOMAINS env)).
Proof.
  unfold dispatch.
  match goal with
  | |- _ ∈ (if ?b then _ else _) → _ => destruct b eqn:Hallowed
  end.
  - intros [Heq|Hin]%elem_of_cons.
    + injection Heq as -> ->. split; [done|]. split; [done|].
      destruct (bool_decide (url = DEFAULT_URL env)) eqn:Hd.
      { left. by apply bool_decide_eq_true_1 in Hd. }
      right. destruct (HTMLScrambler.truthy (form_honeypot f));
        by apply bool_decide_eq_true_1 in Hallowed.
    + destruct (scramble url (HTMLScrambler.truthy (form_honeypot f))).
      * by apply elem_of_nil in Hin.
      * by apply error_no_fetch in Hin.
  - by intros Hin%error_no_fetch.
Qed.

(** Where [main] calls [scramble]: after the checks, or after the error
    message of a request for the scrambler itself. *)
Lemma main_fetch env f u hp :
  Scramble u hp ∈ main urlparse scramble env f →
  ∃ p,
    urlparse u = Parsed p
    ∧ Scramble u hp ∈ dispatch scramble env f u p
    ∧ (hostname p = Some (HTTP_HOST env) ∧ path p = SCRIPT_NAME env
       ∨ scheme p ∈ [py "http"; py "https"]
         ∧ ∃ pt, port p = Ok pt
                 ∧ (pt = None
                    ∨ scheme p = py "http" ∧ pt = Some 80%N
                    ∨ scheme p = py "https" ∧ pt = Some 443%N)).
Proof.
  unfold main.
  match goal with
  | |- _ ∈ match ?r with Ok _ => _ | Raise _ => _ end → _ =>
      destruct r as [url|x]
  end.
  2:{ intros [Heq|Hin%elem_of_nil]%elem_of_cons; [discriminate Heq|done]. }
  destruct (urlparse url) as [p|message] eqn:Hparse.
  2:{ by intros Hin%error_no_fetch. }
  destruct (bool_decide (hostname p = Some (HTTP_HOST env))
            && bool_decide (path p = SCRIPT_NAME env)) eqn:Hself.
  { intros [Hin%error_no_fetch|Hin]%elem_of_app; [done|].
    pose proof (dispatch_fetch _ _ _ _ _ _ Hin) as (-> & _).
    exists p. split; [done|]. split; [done|]. left.
    apply andb_prop in Hself as [Hh Hp].
    by apply bool_decide_eq_true_1 in Hh, Hp. }
  destruct (bool_decide (scheme p ∈ [py "http"; py "https"])) eqn:Hscheme;
    cbn [negb].
  2:{ by intros Hin%error_no_fetch. }
  apply bool_decide_eq_true_1 in Hscheme.
  destruct (port p) as [pt|x] eqn:Hport.
  2:{ intros [Heq|Hin%elem_of_nil]%elem_of_cons; [discriminate Heq|done]. }
  match goal with
  | |- _ ∈ (if negb ?b then _ else _) → _ => destruct b eqn:Hpt; cbn [negb]
  end.
  2:{ by intros Hin%error_no_fetch. }
  intros Hin. pose proof (dispatch_fetch _ _ _ _ _ _ Hin) as (-> & _).
  exists p. split; [done|]. split; [done|]. right. split; [done|].
  exists pt. split; [done|].
  apply orb_prop in Hpt as [[Hn|[Hs Hp]%andb_prop]%orb_prop|[Hs Hp]%andb_prop].
  - left. by apply bool_decide_eq_true_1 in Hn.
  - right. left. by apply bool_decide_eq_true_1 in Hs, Hp.
  - right. right. by apply bool_decide_eq_true_1 in Hs, Hp.
Qed.

(** X16: [main] fetches only what the allowlist admits.  Whatever the
    request, a URL handed to [scramble] is the default URL, or its host is
    on the allowlist, and in honeypot mode its host is the host of the
    scrambler itself; the honeypot flag passed on is that of the request. *)
Theorem fetch_is_allowed (env : environ) (f : form) (u : str) (hp : bool) :
  Scramble u hp ∈ main urlparse scramble env f →
  hp = HTMLScrambler.truthy (form_honeypot f)
  ∧ ∃ p,
      urlparse u = Parsed p
      ∧ (u = DEFAULT_URL env
         ∨ (if hp then hostname p = Some (HTTP_HOST env)
            else hostname p ∈ Some <$> ALLOWED_DOMAINS env)).
Proof.
  intros (p & Hp & Hin & _)%main_fetch.
  apply dispatch_fetch in Hin as (_ & Hhp & Hallowed).
  split; [done|]. by exists p.
Qed.

(** X17: apart from a request for the scrambler itself, [main] fetches
    only [http] URLs with no port or port 80 and [https] URLs with no port
    or port 443. *)
Theorem fetch_is_restricted (env : environ) (f : form) (u : str) (hp : bool) :
  Scramble u hp ∈ main urlparse scramble env f →
  ∃ p,
    urlparse u = Parsed p
    ∧ (hostname p = Some (HTTP_HOST env) ∧ path p = SCRIPT_NAME env
       ∨ scheme p = py "http" ∧ port p ∈ [Ok None; Ok (Some 80%N)]
       ∨ scheme p = py "https" ∧ port p ∈ [Ok None; Ok (Some 443%N)]).
Proof.
  intros (p & Hp & _ & [Hself|[Hscheme (pt & Hport & Hpt)]])%main_fetch;
    exists p; (split; [done|]); [by left|right].
  rewrite Hport.
  destruct Hpt as [->|[[Hs ->]|[Hs ->]]].
  - rewrite !elem_of_cons, elem_of_nil in Hscheme.
    destruct Hscheme as [Hs|[Hs|[]]]; [left|right];
      (split; [done|apply elem_of_cons; by left]).
  - left. split; [done|]. rewrite !elem_of_cons. auto.
  - right. split; [done|]. rewrite !elem_of_cons. auto.
Qed.

(** X18: the check against scrambling the scrambler does not stop the
    request.  For a URL whose host is the host of the scrambler and whose
    path is the path of the script, [main] prints the error message and
    then fetches the URL all the same, whatever its scheme and port. *)
Theorem self_request_is_fetched (env : environ) (f : form) (url : str)
    (p : parsed) :
  form_url f = Some url →
  str_in (py "://") url = true →
  urlparse url = Parsed p →
  hostname p = Some (HTTP_HOST env) →
  path p = SCRIPT_NAME env →
  ∃ rest,
    main urlparse scramble env f
    = _scrambler_error 403 (py "Sorry, the Scrambler cannot scramble itself.")
      ++ Scramble url (HTMLScrambler.truthy (form_honeypot f)) :: rest.
Proof.
  intros Hurl Hsep Hparse Hhost Hpath. unfold main.
  rewrite Hurl. change (default (DEFAULT_URL env) (Some url)) with url.
  rewrite Hsep, Hparse.
  rewrite !bool_decide_eq_true_2 by done. cbn [andb].
  unfold dispatch.
  assert ((if bool_decide (url = DEFAULT_URL env) then true
           else if HTMLScrambler.truthy (form_honeypot f)
                then bool_decide (hostname p = Some (HTTP_HOST env))
                else bool_decide (hostname p ∈ Some <$> ALLOWED_DOMAINS env))
          = true) as ->.
  { destruct (bool_decide (url = DEFAULT_URL env)); [done|].
    destruct (HTMLScrambler.truthy (form_honeypot f));
      apply bool_decide_eq_true_2; [done|].
    rewrite Hhost. apply host_allowed. }
  by eexists.
Qed.

(** X19: a request that is not fetched is answered.  When [main] does
    not call [scramble], it has printed one error message, with status 403
    or 500, or an exception of [urljoin] or of the port of the URL has
    escaped. *)
Theorem refusal_is_reported (env : environ) (f : form) :
  (∀ u hp, Scramble u hp ∉ main urlparse scramble env f) →
  (∃ x, main urlparse scramble env f = [Uncaught x])
  ∨ ∃ code message,
      code ∈ [403%N; 500%N]
      ∧ main urlparse scramble env f = _scrambler_error code message.
Proof.
  assert (∀ url p,
            (∀ u hp, Scramble u hp ∉ dispatch scramble env f url p) →
            ∃ message, dispatch scramble env f url p
                       = _scrambler_error 403 message) as Hdispatch.
  { intros url p Hno. unfold dispatch in *.
    match goal with
    | |- ∃ _, (if ?b then _ else _) = _ => destruct b
    end; [|by eexists].
    exfalso. eapply Hno. apply elem_of_cons. by left. }
  assert (403%N ∈ [403%N; 500%N]) as H403 by (apply elem_of_cons; by left).
  assert (500%N ∈ [403%N; 500%N]) as H500
    by (apply elem_of_cons; right; apply elem_of_cons; by left).
  unfold main.
  match goal with
  | |- _ → (∃ _, match ?r with Ok _ => _ | Raise _ => _ end = _) ∨ _ =>
      destruct r as [url|x]
  end.
  2:{ intros _. left. by eexists. }
  destruct (urlparse url) as [p|message].
  2:{ intros _. right. by eexists _, _. }
  destruct (bool_decide (hostname p = Some (HTTP_HOST env))
            && bool_decide (path p = SCRIPT_NAME env)) eqn:Hself.
  { intros Hno. exfalso. apply andb_prop in Hself as [Hh _].
    apply bool_decide_eq_true_1 in Hh.
    apply (Hno url (HTMLScrambler.truthy (form_honeypot f))).
    apply elem_of_app. right. unfold dispatch.
    assert ((if bool_decide (url = DEFAULT_URL env) then true
             else if HTMLScrambler.truthy (form_honeypot f)
                  then bool_decide (hostname p = Some (HTTP_HOST env))
                  else bool_decide (hostname p ∈ Some <$> ALLOWED_DOMAINS env))
            = true) as ->.
    { destruct (bool_decide (url = DEFAULT_URL env)); [done|].
      destruct (HTMLScrambler.truthy (form_honeypot f));
        apply bool_decide_eq_true_2; [done|].
      rewrite Hh. apply host_allowed. }
    apply elem_of_cons. by left. }
  destruct (bool_decide (scheme p ∈ [py "http"; py "https"])); cbn [negb].
  2:{ intros _. right. by eexists _, _. }
  destruct (port p) as [pt|x].
  2:{ intros _. left. by eexists. }
  match goal with
  | |- _ → _ ∨ (∃ _ _, _ ∧ (if negb ?b then _ else _) = _) =>
      destruct b; cbn [negb]
  end.
  2:{ intros _. right. by eexists _, _. }
  intros Hno. right. destruct (Hdispatch url p Hno) as [message ->].
  by exists 403%N, message.
Qed.

End MainFacts.

Lemma fetch_is_allowed_witness :
  false
  = HTMLScrambler.truthy
      (CGI.form_honeypot
         {| CGI.form_url := Some (py "http://example.org/a");
            CGI.form_honeypot := None |})
  ∧ ∃ p,
      example_urlparse (py "http://example.org/a") = CGI.Parsed p
      ∧ (py "http://example.org/a" = CGI.DEFAULT_URL example_environ
         ∨ (if false then CGI.hostname p = Some (CGI.HTTP_HOST example_environ)
            else CGI.hostname p
                 ∈ Some <$> CGI.ALLOWED_DOMAINS example_environ)).
Proof.
  apply (fetch_is_allowed example_urlparse example_fetch example_environ
           {| CGI.form_url := Some (py "http://example.org/a");
              CGI.form_honeypot := None |}).
  vm_compute. apply elem_of_cons. by left.
Defined.

Lemma fetch_is_restricted_witness :
  ∃ p,
    example_urlparse (py "https://example.com/missing") = CGI.Parsed p
    ∧ (CGI.hostname p = Some (CGI.HTTP_HOST example_environ)
       ∧ CGI.path p = CGI.SCRIPT_NAME example_environ
       ∨ CGI.scheme p = py "http"
         ∧ CGI.port p ∈ [Ok None; Ok (Some 80%N)]
       ∨ CGI.scheme p = py "https"
         ∧ CGI.port p ∈ [Ok None; Ok (Some 443%N)]).
Proof.
  apply (fetch_is_restricted example_urlparse example_fetch example_environ
           {| CGI.form_url := Some (py "https://example.com/missing");
              CGI.form_honeypot := None |} _ false).
  vm_compute. apply elem_of_cons. by left.
Defined.

Lemma self_request_is_fetched_witness :
  ∃ rest,
    CGI.main example_urlparse example_fetch example_environ
      {| CGI.form_url := Some (py "ftp://localhost/cgi-bin/scrambler.py");
         CGI.form_honeypot := Some (py "1") |}
    = CGI._scrambler_error 403
        (py "Sorry, the Scrambler cannot scramble itself.")
      ++ CGI.Scramble (py "ftp://localhost/cgi-bin/scrambler.py")
           (HTMLScrambler.truthy
              (CGI.form_honeypot
                 {| CGI.form_url :=
                      Some (py "ftp://localhost/cgi-bin/scrambler.py");
                    CGI.form_honeypot := Some (py "1") |}))
         :: rest.
Proof.
  apply (self_request_is_fetched example_urlparse example_fetch
           example_environ _ _
           {| CGI.hostname := Some (py "localhost");
              CGI.path := py "/cgi-bin/scrambler.py";
              CGI.scheme := py "ftp";
              CGI.port := Ok None |}); reflexivity.
Defined.

Lemma refusal_is_reported_witness :
  (∃ x,
     CGI.main example_urlparse example_fetch example_environ
       {| CGI.form_url := Some (py "http://example.net/");
          CGI.form_honeypot := None |}
     = [CGI.Uncaught x])
  ∨ ∃ code message,
      code ∈ [403%N; 500%N]
      ∧ CGI.main example_urlparse example_fetch example_environ
          {| CGI.form_url := Some (py "http://example.net/");
             CGI.form_honeypot := None |}
        = CGI._scrambler_error code message.
Proof.
  apply refusal_is_reported. intros u hp.
  exact (error_no_fetch 403
           (py "Sorry, example.net is not on the Scrambler's allowlist.")
           u hp).
Defined.
